(** * The transaction posting engine of the accounts service

    A shallow embedding of [cmd/server/transactions.go] (validation and the
    funds check) and of the SQLite transaction repository
    ([createTransaction], [getTransaction], [getAccountTransactions],
    [getAccountBalance]), followed by the properties of the ledger
    specification that these functions decide.

    Conventions.
    - Go's [int] and [int64] are 64-bit two's-complement integers (the
      service targets 64-bit platforms); they are carried in [Z] and every
      addition is followed by [wrap64].
    - A Go [error] is [option error] ([None] is [nil]); an error built by
      [fmt.Errorf] keeps its format string and its arguments.
    - [database/sql] and SQLite are outside the repository: each call the
      code checks for failure takes its outcome from a script held in the
      [world], and the SQL text of each statement is modelled on the two
      tables of the schema in [migrations]. *)

From Stdlib Require Import ZArith List String Bool Lia Permutation.
Import ListNotations.
Open Scope string_scope.
Open Scope list_scope.
Open Scope Z_scope.

(** ** Machine integers *)

Definition two63 : Z := 2 ^ 63.
Definition two64 : Z := 2 ^ 64.

(** Reduction of an integer into the signed 64-bit range. *)
Definition wrap64 (z : Z) : Z := (z + two63) mod two64 - two63.

Definition in_int64 (z : Z) : Prop := - two63 <= z < two63.

Definition in_int64b (z : Z) : bool := (- two63 <=? z) && (z <? two63).

(** [int64(x)] applied to a Go [int]. *)
Definition int64 (z : Z) : Z := wrap64 z.

(** ** Errors *)

Inductive error : Type :=
| DriverError (msg : string)
| Errorf (format : string) (args : list value)
with value : Type :=
| VStr (s : string)
| VInt (n : Z)
| VErr (e : option error).

(** Outcome of a Go call: it returns, or the goroutine panics. *)
Inductive outcome (A : Type) : Type :=
| Val (a : A)
| Panic.
Arguments Val {A} a.
Arguments Panic {A}.

(** ** transactions.go: purposes, lines and transactions *)

Definition TransactionPurpose := string.

Definition ACHCredit : TransactionPurpose := "achcredit".
Definition ACHDebit : TransactionPurpose := "achdebit".
Definition Fee : TransactionPurpose := "fee".
Definition Interest : TransactionPurpose := "interest".
Definition Transfer : TransactionPurpose := "transfer".
Definition Wire : TransactionPurpose := "wire".

Definition enumerated (p : TransactionPurpose) : bool :=
  (p =? ACHCredit)%string || (p =? ACHDebit)%string || (p =? Fee)%string
  || (p =? Interest)%string || (p =? Transfer)%string || (p =? Wire)%string.

(** [func (p TransactionPurpose) validate() error] *)
Definition TransactionPurpose_validate (p : TransactionPurpose) : option error :=
  if enumerated p then None
  else Some (Errorf "unknown TransactionPurpose %q" [VStr p]).

Definition time := Z.

Record transactionLine : Type := mkLine {
  AccountId : string;
  Purpose : TransactionPurpose;
  Amount : Z
}.

Record transaction : Type := mkTransaction {
  ID : string;
  Timestamp : time;
  Lines : list transactionLine
}.

(** The loop [for i := range t.Lines { sum += t.Lines[i].Amount }]. *)
Fixpoint sumLoop (sum : Z) (lines : list transactionLine) : Z :=
  match lines with
  | [] => sum
  | l :: rest => sumLoop (wrap64 (sum + Amount l)) rest
  end.

Definition len {A : Type} (l : list A) : Z := Z.of_nat (List.length l).

(** [func (t transaction) validate() error] *)
Definition validate (t : transaction) : option error :=
  let sum := sumLoop 0 (Lines t) in
  if sum =? 0 then None
  else Some (Errorf "transaction=%s has %d invalid lines sum=%d"
                    [VStr (ID t); VInt (len (Lines t)); VInt sum]).

(** The exact (unbounded) sum of the line amounts. *)
Definition total (lines : list transactionLine) : Z :=
  fold_right (fun l acc => Amount l + acc) 0 lines.

(** ** transactions.go: the funds check *)

(** The two fields of [gl.Account] that [checkBalance] reads.  The slice
    holds pointers; [GetAccounts], its producer, appends the address of a
    scanned account, so no entry is nil. *)
Record Account : Type := mkAccount {
  Account_ID : string;
  Balance : Z
}.

Definition InsufficientFunds (id : string) : error :=
  Errorf "checkBalance: account %s has insufficient funds" [VStr id].

Definition NoMatchingLine (id : string) : error :=
  Errorf "checkBalance: no transactionLines found for account %s" [VStr id].

Definition InvalidCheckInput (accounts : list Account) (tx : transaction) : error :=
  Errorf "checkBalance: invalid input len(accounts)=%d len(tx.Lines)=%d"
         [VInt (len accounts); VInt (len (Lines tx))].

(** How the inner loop [for j := range tx.Lines] ends for one account. *)
Inductive verdict : Type :=
| Insufficient   (* return ... has insufficient funds *)
| Sufficient     (* goto sufficient *)
| NoMatch.       (* the loop ran out of lines *)

Fixpoint scanLines (a : Account) (lines : list transactionLine) : verdict :=
  match lines with
  | [] => NoMatch
  | l :: rest =>
      if (Account_ID a =? AccountId l)%string then
        if Balance a <? int64 (Amount l) then Insufficient else Sufficient
      else scanLines a rest
  end.

(** The outer loop [for i := range accounts]. *)
Fixpoint checkAccounts (accounts : list Account) (lines : list transactionLine)
  : option error :=
  match accounts with
  | [] => None
  | a :: rest =>
      if Balance a >? 0 then
        match scanLines a lines with
        | Insufficient => Some (InsufficientFunds (Account_ID a))
        | Sufficient => checkAccounts rest lines
        | NoMatch => Some (NoMatchingLine (Account_ID a))
        end
      else checkAccounts rest lines
  end.

(** [func checkBalance(accounts []*gl.Account, tx transaction) error] *)
Definition checkBalance (accounts : list Account) (tx : transaction) : option error :=
  if (len accounts <? 2) || (len (Lines tx) =? 0) then
    Some (InvalidCheckInput accounts tx)
  else checkAccounts accounts (Lines tx).

(** ** sqlite.go: the two ledger tables

    [migrations] creates [transactions(transaction_id, timestamp, created_at,
    deleted_at)] and [transaction_lines(transaction_id, account_id, purpose,
    amount integer, created_at, deleted_at)].  Neither table carries a
    uniqueness constraint: [transaction_lines] declares none, and in
    [transactions] the column is declared [transaction_id primart key], which
    SQLite reads as a column of type "primart key".  That type gives the
    column NUMERIC affinity; the columns of [transaction_lines] other than
    [amount] have no declared type and keep text as text.  A table is the
    list of its rows in insertion order. *)

Record transactions_row : Type := mkHeader {
  h_transaction_id : string;
  h_timestamp : time;
  h_created_at : time;
  h_deleted_at : option time
}.

Record transaction_lines_row : Type := mkRow {
  r_transaction_id : string;
  r_account_id : string;
  r_purpose : string;
  r_amount : Z;
  r_created_at : time;
  r_deleted_at : option time
}.

Record database : Type := mkDatabase {
  transactions : list transactions_row;
  transaction_lines : list transaction_lines_row
}.

Definition is_null {A : Type} (o : option A) : bool :=
  match o with None => true | Some _ => false end.

(** ** The environment of the repository *)

(** [store] is the committed database, [script] the outcomes of the coming
    [database/sql] calls ([None]: the call succeeds; an exhausted script
    means every later call succeeds), [clock] the next reading of
    [time.Now()]. *)
Record world : Type := mkWorld {
  store : database;
  script : list (option error);
  clock : time
}.

Definition M (A : Type) : Type := world -> outcome A * world.

Definition ret {A : Type} (a : A) : M A := fun w => (Val a, w).

Definition bind {A B : Type} (m : M A) (k : A -> M B) : M B :=
  fun w =>
    match m w with
    | (Val a, w') => k a w'
    | (Panic, w') => (Panic, w')
    end.

Definition panic {A : Type} : M A := fun w => (Panic, w).

Declare Scope go_scope.
Delimit Scope go_scope with go.
Notation "x <- m ;; k" := (bind m (fun x => k))
  (at level 100, m at next level, right associativity) : go_scope.
Notation "m ;;; k" := (bind m (fun _ => k))
  (at level 100, right associativity) : go_scope.
Open Scope go_scope.

(** One call into [database/sql]: its outcome is the head of the script. *)
Definition driver : M (option error) :=
  fun w =>
    match script w with
    | [] => (Val None, w)
    | o :: s => (Val o, mkWorld (store w) s (clock w))
    end.

(** [time.Now()]; successive readings are taken to increase. *)
Definition time_Now : M time :=
  fun w => (Val (clock w), mkWorld (store w) (script w) (clock w + 1)).

(** An open [*sql.Tx]: the database as the transaction sees it. *)
Definition Tx : Type := database.

(** [r.db.Begin()] *)
Definition db_Begin : M (Tx + error) :=
  e <- driver ;;
  match e with
  | Some err => ret (inr err)
  | None => fun w => (Val (inl (store w)), w)
  end.

(** [tx.Commit()]: the rows of the transaction become the committed ones. *)
Definition tx_Commit (tx : Tx) : M (option error) :=
  e <- driver ;;
  match e with
  | Some err => ret (Some err)
  | None => fun w => (Val None, mkWorld tx (script w) (clock w))
  end.

(** [tx.Rollback()]: the rows of the transaction are dropped. *)
Definition tx_Rollback (tx : Tx) : M (option error) := driver.

(** The statements the repository prepares. *)
Inductive sql : Type :=
| insert_transaction
    (* insert into transactions(transaction_id, timestamp, created_at)
       values (?, ?, ?); *)
| insert_transaction_line
    (* insert into transaction_lines(transaction_id, account_id, purpose,
       amount, created_at) values (?, ?, ?, ?, ?); *)
| select_account_transaction_ids
    (* select distinct transaction_id from transaction_lines
       where account_id = ? order by created_at desc; *)
| select_timestamp
    (* select timestamp from transactions
       where transaction_id = ? and deleted_at is null limit 1; *)
| select_lines
    (* select account_id, purpose, amount from transaction_lines
       where transaction_id = ? and deleted_at is null *)
| select_balance.
    (* select coalesce(sum(amount), 0) from transaction_lines
       where account_id = ? and deleted_at is null; *)

(** A [*sql.Stmt]; [None] is the nil pointer. *)
Definition Stmt : Type := option sql.

(** [tx.Prepare(query)] returns [(nil, err)] when it fails. *)
Definition tx_Prepare (tx : Tx) (query : sql) : M (Stmt * option error) :=
  e <- driver ;;
  match e with
  | Some err => ret (None, Some err)
  | None => ret (Some query, None)
  end.

(** [stmt.Close()] locks a mutex inside the statement: on a nil statement it
    dereferences nil and panics.  Its error result is never read. *)
Definition Stmt_Close (stmt : Stmt) : M unit :=
  match stmt with
  | None => panic
  | Some _ => ret tt
  end.

(** [stmt.Exec(t.ID, t.Timestamp, time.Now())] on [insert_transaction]. *)
Definition Exec_insert_transaction (stmt : Stmt) (tx : Tx)
    (id : string) (timestamp created : time) : M (Tx * option error) :=
  match stmt with
  | None => panic
  | Some _ =>
      e <- driver ;;
      match e with
      | Some err => ret (tx, Some err)
      | None =>
          ret (mkDatabase
                 (transactions tx ++ [mkHeader id timestamp created None])
                 (transaction_lines tx), None)
      end
  end.

(** [stmt.Exec(t.ID, l.AccountId, l.Purpose, l.Amount, time.Now())] on
    [insert_transaction_line]. *)
Definition Exec_insert_transaction_line (stmt : Stmt) (tx : Tx)
    (id : string) (l : transactionLine) (created : time) : M (Tx * option error) :=
  match stmt with
  | None => panic
  | Some _ =>
      e <- driver ;;
      match e with
      | Some err => ret (tx, Some err)
      | None =>
          ret (mkDatabase
                 (transactions tx)
                 (transaction_lines tx ++
                    [mkRow id (AccountId l) (Purpose l) (Amount l) created None]),
               None)
      end
  end.

(** ** The transaction repository: createTransaction *)

(** The loop [for i := range t.Lines] of [createTransaction]: [inl tx] when
    every line is inserted, [inr err] when the function returns [err]. *)
Fixpoint insertLines (t : transaction) (lines : list transactionLine) (tx : Tx)
  : M (Tx + error) :=
  match lines with
  | [] => ret (inl tx)
  | l :: rest =>
      p <- tx_Prepare tx insert_transaction_line ;;
      match p with
      | (stmt, Some err) =>
          Stmt_Close stmt ;;;
          rb <- tx_Rollback tx ;;
          ret (inr (Errorf
            "createTransaction: transaction=%q account=%q prepare: error=%v rollback=%v"
            [VStr (ID t); VStr (AccountId l); VErr (Some err); VErr rb]))
      | (stmt, None) =>
          now <- time_Now ;;
          x <- Exec_insert_transaction_line stmt tx (ID t) l now ;;
          match x with
          | (_, Some err) =>
              Stmt_Close stmt ;;;
              rb <- tx_Rollback tx ;;
              ret (inr (Errorf
                "createTransaction: transaction=%q account=%q insert: error=%v rollback=%v"
                [VStr (ID t); VStr (AccountId l); VErr (Some err); VErr rb]))
          | (tx', None) =>
              Stmt_Close stmt ;;;
              insertLines t rest tx'
          end
      end
  end.

Definition invalidTransaction (t : transaction) (err : error) : error :=
  Errorf "transaction=%q is invalid: %v" [VStr (ID t); VErr (Some err)].

(** [func (r *sqliteTransactionRepository) createTransaction(t transaction) error] *)
Definition createTransaction (t : transaction) : M (option error) :=
  match validate t with
  | Some err => ret (Some (invalidTransaction t err))
  | None =>
      b <- db_Begin ;;
      match b with
      | inr err =>
          ret (Some (Errorf "createTransaction: tx.Begin: %v" [VErr (Some err)]))
      | inl tx =>
          p <- tx_Prepare tx insert_transaction ;;
          match p with
          | (_, Some err) =>
              rb <- tx_Rollback tx ;;
              ret (Some (Errorf "createTransaction: prepare: error=%v rollback=%v"
                                [VErr (Some err); VErr rb]))
          | (stmt, None) =>
              now <- time_Now ;;
              x <- Exec_insert_transaction stmt tx (ID t) (Timestamp t) now ;;
              match x with
              | (_, Some err) =>
                  Stmt_Close stmt ;;;
                  rb <- tx_Rollback tx ;;
                  ret (Some (Errorf "createTransaction: insert: error=%v rollback=%v"
                                    [VErr (Some err); VErr rb]))
              | (tx', None) =>
                  Stmt_Close stmt ;;;
                  r <- insertLines t (Lines t) tx' ;;
                  match r with
                  | inr err => ret (Some err)
                  | inl tx'' =>
                      c <- tx_Commit tx'' ;;
                      match c with
                      | Some err =>
                          ret (Some (Errorf "createTransaction: commit: %v"
                                            [VErr (Some err)]))
                      | None => ret None
                      end
                  end
              end
          end
      end
  end.

(** ** The transaction repository: reading *)

(** [sql.ErrNoRows] *)
Definition ErrNoRows : error := DriverError "sql: no rows in result set".

(** [stmt.QueryRow(transactionId).Scan(&timestamp)] on [select_timestamp].
    Header IDs are compared as strings: that is the comparison SQLite makes
    unless both the stored and the requested ID read as numbers, which the
    NUMERIC affinity of the column would then compare by value; what is
    proved of a lookup whose answer rests on such a comparison is stated
    for an ID that does not read as a number. *)
Definition QueryRow_timestamp (stmt : Stmt) (tx : Tx) (transactionId : string)
  : M (time + error) :=
  match stmt with
  | None => panic
  | Some _ =>
      e <- driver ;;
      match e with
      | Some err => ret (inr err)
      | None =>
          match find (fun h => (h_transaction_id h =? transactionId)%string
                               && is_null (h_deleted_at h)) (transactions tx) with
          | Some h => ret (inl (h_timestamp h))
          | None => ret (inr ErrNoRows)
          end
      end
  end.

(** [stmt.Query(transactionId)] on [select_lines]: the selected rows. *)
Definition Query_lines (stmt : Stmt) (tx : Tx) (transactionId : string)
  : M (list transaction_lines_row + error) :=
  match stmt with
  | None => panic
  | Some _ =>
      e <- driver ;;
      match e with
      | Some err => ret (inr err)
      | None =>
          ret (inl (filter (fun r => (r_transaction_id r =? transactionId)%string
                                     && is_null (r_deleted_at r))
                           (transaction_lines tx)))
      end
  end.

(** [rows.Err()] *)
Definition rows_Err : M (option error) := driver.

(** The loop [for rows.Next()] of [getTransaction]; a failed [rows.Scan] is
    taken to leave [line] at its zero value. *)
Fixpoint scanLineRows (transactionId : string) (rows : list transaction_lines_row)
    (lines : list transactionLine) : M (list transactionLine + error) :=
  match rows with
  | [] => ret (inl lines)
  | r :: rest =>
      e <- driver ;;
      match e with
      | Some err =>
          ret (inr (Errorf "getTransaction: scan transaction=%q account=%q: %v"
                           [VStr transactionId; VStr ""; VErr (Some err)]))
      | None =>
          scanLineRows transactionId rest
            (lines ++ [mkLine (r_account_id r) (r_purpose r) (r_amount r)])
      end
  end.

(** [func (r *sqliteTransactionRepository) getTransaction(tx *sql.Tx,
    transactionId string)] returning a transaction pointer and an error; the deferred [Close] calls
    act on non-nil values and change nothing here. *)
Definition getTransaction (tx : Tx) (transactionId : string)
  : M (option transaction * option error) :=
  p <- tx_Prepare tx select_timestamp ;;
  match p with
  | (_, Some err) =>
      ret (None, Some (Errorf "getTransaction: timestamp: %v" [VErr (Some err)]))
  | (stmt, None) =>
      q <- QueryRow_timestamp stmt tx transactionId ;;
      match q with
      | inr err =>
          Stmt_Close stmt ;;;
          ret (None, Some (Errorf "getTransaction: timestamp query: %v"
                                  [VErr (Some err)]))
      | inl timestamp =>
          Stmt_Close stmt ;;;
          p <- tx_Prepare tx select_lines ;;
          match p with
          | (_, Some err) =>
              ret (None, Some (Errorf "getTransaction: %v" [VErr (Some err)]))
          | (stmt, None) =>
              q <- Query_lines stmt tx transactionId ;;
              match q with
              | inr err =>
                  ret (None, Some (Errorf "getTransaction: query: %v"
                                          [VErr (Some err)]))
              | inl rows =>
                  s <- scanLineRows transactionId rows [] ;;
                  match s with
                  | inr err => ret (None, Some err)
                  | inl lines =>
                      e <- rows_Err ;;
                      ret (Some (mkTransaction transactionId timestamp lines), e)
                  end
              end
          end
      end
  end.

(** Rows by [created_at], newest first; rows of equal time keep their order. *)
Fixpoint insert_desc (r : transaction_lines_row) (l : list transaction_lines_row)
  : list transaction_lines_row :=
  match l with
  | [] => [r]
  | x :: xs =>
      if r_created_at x <=? r_created_at r then r :: x :: xs
      else x :: insert_desc r xs
  end.

Definition order_by_created_at_desc (l : list transaction_lines_row)
  : list transaction_lines_row :=
  fold_right insert_desc [] l.

(** [select distinct transaction_id]: of the rows scanned, in table order,
    the first one of each transaction ID is kept. *)
Fixpoint first_of_each (rows : list transaction_lines_row)
  : list transaction_lines_row :=
  match rows with
  | [] => []
  | r :: rest =>
      r :: filter (fun x => negb (r_transaction_id x =? r_transaction_id r)%string)
                  (first_of_each rest)
  end.

(** [stmt.Query(accountId)] on [select_account_transaction_ids]; the statement
    has no condition on [deleted_at].  SQLite keeps the first scanned row of
    each ID and orders the IDs by the [created_at] of that row. *)
Definition Query_transaction_ids (stmt : Stmt) (tx : Tx) (accountId : string)
  : M (list string + error) :=
  match stmt with
  | None => panic
  | Some _ =>
      e <- driver ;;
      match e with
      | Some err => ret (inr err)
      | None =>
          ret (inl (map r_transaction_id
                 (order_by_created_at_desc
                    (first_of_each
                       (filter (fun r => (r_account_id r =? accountId)%string)
                               (transaction_lines tx))))))
      end
  end.

(** The loop [for rows.Next()] of [getAccountTransactions]. *)
Fixpoint scanIds (tx : Tx) (rows : list string) (transactionIds : list string)
  : M (list string + error) :=
  match rows with
  | [] => ret (inl transactionIds)
  | id :: rest =>
      e <- driver ;;
      match e with
      | Some err =>
          rb <- tx_Rollback tx ;;
          ret (inr (Errorf "getAccountTransactions: scan: error=%v rollback=%v"
                           [VErr (Some err); VErr rb]))
      | None => scanIds tx rest (transactionIds ++ [id])
      end
  end.

(** The loop [for i := range transactionIds] of [getAccountTransactions]. *)
Fixpoint loadTransactions (tx : Tx) (transactionIds : list string)
    (acc : list transaction) : M (list transaction + error) :=
  match transactionIds with
  | [] => ret (inl acc)
  | id :: rest =>
      g <- getTransaction tx id ;;
      match g with
      | (_, Some err) =>
          rb <- tx_Rollback tx ;;
          ret (inr (Errorf "getAccountTransactions: looping: error=%v rollback=%v"
                           [VErr (Some err); VErr rb]))
      | (Some t, None) => loadTransactions tx rest (acc ++ [t])
      | (None, None) => panic
      end
  end.

(** [func (r *sqliteTransactionRepository) getAccountTransactions(accountId
    string) ([]transaction, error)] *)
Definition getAccountTransactions (accountId : string)
  : M (list transaction * option error) :=
  b <- db_Begin ;;
  match b with
  | inr err =>
      ret ([], Some (Errorf "getAccountTransactions: %v" [VErr (Some err)]))
  | inl tx =>
      p <- tx_Prepare tx select_account_transaction_ids ;;
      match p with
      | (_, Some err) =>
          rb <- tx_Rollback tx ;;
          ret ([], Some (Errorf "getAccountTransactions: prepare: error=%v rollback=%v"
                                [VErr (Some err); VErr rb]))
      | (stmt, None) =>
          q <- Query_transaction_ids stmt tx accountId ;;
          match q with
          | inr err =>
              rb <- tx_Rollback tx ;;
              ret ([], Some (Errorf "getAccountTransactions: query: error=%v rollback=%v"
                                    [VErr (Some err); VErr rb]))
          | inl rows =>
              s <- scanIds tx rows [] ;;
              match s with
              | inr err => ret ([], Some err)
              | inl transactionIds =>
                  e <- rows_Err ;;
                  match e with
                  | Some err =>
                      rb <- tx_Rollback tx ;;
                      ret ([], Some (Errorf
                        "getAccountTransactions: err: error=%v rollback=%v"
                        [VErr (Some err); VErr rb]))
                  | None =>
                      l <- loadTransactions tx transactionIds [] ;;
                      match l with
                      | inr err => ret ([], Some err)
                      | inl transactions =>
                          c <- tx_Commit tx ;;
                          match c with
                          | Some err =>
                              rb <- tx_Rollback tx ;;
                              ret ([], Some (Errorf
                                "getAccountTransactions: commit: error=%v rollback=%v"
                                [VErr (Some err); VErr rb]))
                          | None => ret (transactions, None)
                          end
                      end
                  end
              end
          end
      end
  end.

(** SQLite's [sum()] over integers: the running 64-bit sum, which raises
    "integer overflow" as soon as it leaves the signed 64-bit range. *)
Fixpoint sqlite_sum (acc : Z) (amounts : list Z) : option Z :=
  match amounts with
  | [] => Some acc
  | a :: rest =>
      if in_int64b (acc + a) then sqlite_sum (acc + a) rest else None
  end.

(** The rows [select_balance] sums for an account. *)
Definition balance_rows (tx : Tx) (accountId : string) : list transaction_lines_row :=
  filter (fun r => (r_account_id r =? accountId)%string && is_null (r_deleted_at r))
         (transaction_lines tx).

(** [stmt.QueryRow(accountId).Scan(&amount)] on [select_balance]; over no row
    [sum(amount)] is NULL and [coalesce] returns 0. *)
Definition QueryRow_balance (stmt : Stmt) (tx : Tx) (accountId : string)
  : M (Z + error) :=
  match stmt with
  | None => panic
  | Some _ =>
      e <- driver ;;
      match e with
      | Some err => ret (inr err)
      | None =>
          match sqlite_sum 0 (map r_amount (balance_rows tx accountId)) with
          | Some s => ret (inl s)
          | None => ret (inr (DriverError "integer overflow"))
          end
      end
  end.

(** [func (r *sqliteTransactionRepository) getAccountBalance(tx *sql.Tx,
    accountId string) (int64, error)] *)
Definition getAccountBalance (tx : Tx) (accountId : string) : M (Z * option error) :=
  p <- tx_Prepare tx select_balance ;;
  match p with
  | (_, Some err) => ret (0, Some err)
  | (stmt, None) =>
      q <- QueryRow_balance stmt tx accountId ;;
      match q with
      | inr err => ret (0, Some err)
      | inl amount => ret (amount, None)
      end
  end.

(** * Notions the properties are stated with *)

(** The first line of a transaction, in line order, posted to an account. *)
Definition firstLine (id : string) (lines : list transactionLine)
  : option transactionLine :=
  find (fun l => (id =? AccountId l)%string) lines.

(** A script under which every database call succeeds. *)
Definition ok_script (s : list (option error)) : Prop :=
  Forall (fun o => o = None) s.

(** The row [Exec_insert_transaction_line] adds for a line. *)
Definition lineRow (id : string) (l : transactionLine) (created : time)
  : transaction_lines_row :=
  mkRow id (AccountId l) (Purpose l) (Amount l) created None.

(** The rows of the lines of a transaction, inserted from time [c] on. *)
Fixpoint lineRows (id : string) (lines : list transactionLine) (c : time)
  : list transaction_lines_row :=
  match lines with
  | [] => []
  | l :: rest => lineRow id l c :: lineRows id rest (c + 1)
  end.

(** The ledger once transaction [t] is posted at time [c]: one header row and
    one row per line, after the rows already there. *)
Definition posted (db : database) (t : transaction) (c : time) : database :=
  mkDatabase
    (transactions db ++ [mkHeader (ID t) (Timestamp t) c None])
    (transaction_lines db ++ lineRows (ID t) (Lines t) (c + 1)).

(** The line a row of [transaction_lines] scans into. *)
Definition lineOf (r : transaction_lines_row) : transactionLine :=
  mkLine (r_account_id r) (r_purpose r) (r_amount r).

(** The rows of [transaction_lines] that [select_lines] returns. *)
Definition visible_rows (db : database) (transactionId : string)
  : list transaction_lines_row :=
  filter (fun r => (r_transaction_id r =? transactionId)%string
                   && is_null (r_deleted_at r)) (transaction_lines db).

(** The first header [select_timestamp] can return. *)
Definition visible_header (db : database) (transactionId : string)
  : option transactions_row :=
  find (fun h => (h_transaction_id h =? transactionId)%string
                 && is_null (h_deleted_at h)) (transactions db).

(** No visible line of the ledger carries the ID yet. *)
Definition unused (id : string) (db : database) : Prop :=
  forall r, In r (transaction_lines db) ->
            r_transaction_id r = id -> r_deleted_at r <> None.

(** The exact sum of the amounts of the visible lines of an account. *)
Definition ledger_balance (db : database) (accountId : string) : Z :=
  fold_right
    (fun r acc =>
       if (r_account_id r =? accountId)%string && is_null (r_deleted_at r)
       then r_amount r + acc else acc)
    0 (transaction_lines db).

Definition zsum (l : list Z) : Z := fold_right Z.add 0 l.

(** Every partial sum, in table order, is a signed 64-bit integer. *)
Definition running_in_range (amounts : list Z) : Prop :=
  forall n : nat, in_int64 (zsum (firstn n amounts)).

(** * Sample transactions, accounts and ledgers *)

(** A transaction of four credits of 2^62 each; every amount is a Go int. *)
Definition overflowing : transaction :=
  mkTransaction "T1" 0
    [mkLine "A" Transfer (2 ^ 62); mkLine "B" Transfer (2 ^ 62);
     mkLine "C" Transfer (2 ^ 62); mkLine "D" Transfer (2 ^ 62)].

Definition payout : transaction :=
  mkTransaction "T2" 7
    [mkLine "A" Transfer (-300); mkLine "B" Transfer 200; mkLine "C" Transfer 100].

Definition unbalanced : transaction :=
  mkTransaction "T3" 7 [mkLine "A" Transfer (-300); mkLine "B" Transfer 200].

Definition empty_ledger : database := mkDatabase [] [].

Definition quiet_world : world := mkWorld empty_ledger [] 0.

Definition no_lines : transaction := mkTransaction "T4" 7 [].

Definition mislabelled : transaction :=
  mkTransaction "T5" 7 [mkLine "A" "bogus" (-5); mkLine "B" Transfer 5].

Definition relabelled : transaction :=
  mkTransaction "T5" 9 [mkLine "X" Wire (-5); mkLine "" Fee 5].

Definition drained : list Account := [mkAccount "A" 0; mkAccount "B" (-40)].

Definition withdrawal : transaction :=
  mkTransaction "T6" 7 [mkLine "A" ACHDebit (-500); mkLine "B" ACHCredit 500].

Definition funded : list Account := [mkAccount "A" 100; mkAccount "B" 0].

Definition single_credit : transaction :=
  mkTransaction "T7" 7 [mkLine "A" ACHCredit 50; mkLine "B" ACHDebit (-50)].

Definition repeated_credit : transaction :=
  mkTransaction "T8" 7
    [mkLine "A" ACHCredit 50; mkLine "B" ACHDebit (-1050); mkLine "A" ACHCredit 1000].

Definition overdraft : transaction :=
  mkTransaction "T10" 7 [mkLine "A" ACHDebit (-500); mkLine "B" ACHCredit 500].

Definition boom : error := DriverError "database is locked".

(** The ledger holding [payout], and a second transaction under its ID. *)
Definition ledger1 : database := posted empty_ledger payout 0.

Definition reused : transaction :=
  mkTransaction "T2" 8 [mkLine "D" Transfer (-5); mkLine "E" Transfer 5].

(** A transaction under an ID that [ledger1] does not hold. *)
Definition refund : transaction :=
  mkTransaction "T21" 9 [mkLine "B" Transfer (-10); mkLine "A" Transfer 10].


(** Transaction T11 moved 10 from A to B; its line on A was soft-deleted at
    time 5. *)
Definition ledger2 : database :=
  mkDatabase
    [mkHeader "T11" 1 1 None]
    [mkRow "T11" "A" Transfer (-10) 2 (Some 5);
     mkRow "T11" "B" Transfer 10 3 None].

(** * Further notions: balances, histories and stored transactions *)

(** The exact sum of the amounts a list of lines posts to an account. *)
Definition account_total (accountId : string) (lines : list transactionLine) : Z :=
  fold_right
    (fun l acc => if (AccountId l =? accountId)%string then Amount l + acc else acc)
    0 lines.

(** The exact sum of the amounts of all visible lines of the ledger. *)
Definition ledger_total (db : database) : Z :=
  fold_right
    (fun r acc => if is_null (r_deleted_at r) then r_amount r + acc else acc)
    0 (transaction_lines db).

(** The transaction IDs [select_account_transaction_ids] returns. *)
Definition account_transaction_ids (db : database) (accountId : string)
  : list string :=
  map r_transaction_id
    (order_by_created_at_desc
       (first_of_each
          (filter (fun r => (r_account_id r =? accountId)%string)
                  (transaction_lines db)))).

(** A byte that can occur in a numeric literal of SQLite: a digit, a sign,
    the point, the exponent mark, or white space. *)
Definition numeric_char (c : Ascii.ascii) : bool :=
  let n := Ascii.nat_of_ascii c in
  ((48 <=? n) && (n <=? 57) || (n =? 43) || (n =? 45) || (n =? 46)
   || (n =? 101) || (n =? 69) || (n =? 32) || (9 <=? n) && (n <=? 13))%nat.

Fixpoint all_numeric_chars (s : string) : bool :=
  match s with
  | EmptyString => true
  | String c s' => numeric_char c && all_numeric_chars s'
  end.

(** An ID that a column of NUMERIC affinity keeps as text: the empty string,
    or a string holding a byte that no numeric literal holds.  The column
    [transactions.transaction_id] has that affinity (its declared type is
    "primart key"): an ID that reads as a number is stored and compared as a
    number there, every other ID as text, byte by byte.  A comparison in
    which one of the two IDs is [textual] is therefore equality of strings,
    which is what [QueryRow_timestamp] computes. *)
Definition textual (s : string) : bool :=
  (s =? "")%string || negb (all_numeric_chars s).

(** The transaction the ledger holds under an ID: its first visible header
    with its visible lines; none when no header of the ID is visible. *)
Definition stored (db : database) (transactionId : string) : option transaction :=
  match visible_header db transactionId with
  | Some h =>
      Some (mkTransaction transactionId (h_timestamp h)
              (map lineOf (visible_rows db transactionId)))
  | None => None
  end.

(** The error of [getTransaction] for an ID without visible header. *)
Definition NotFound : error :=
  Errorf "getTransaction: timestamp query: %v" [VErr (Some ErrNoRows)].

(** What a positive-balance account needs to pass the funds check: a first
    line, in transaction order, whose amount does not exceed the balance. *)
Definition covered (lines : list transactionLine) (a : Account) : Prop :=
  Balance a <= 0 \/
  exists l, firstLine (Account_ID a) lines = Some l /\ int64 (Amount l) <= Balance a.

(** The transactions stored under a list of IDs, when each has a visible
    header. *)
Fixpoint load_all (db : database) (ids : list string) : option (list transaction) :=
  match ids with
  | [] => Some []
  | id :: rest =>
      match stored db id, load_all db rest with
      | Some t, Some ts => Some (t :: ts)
      | _, _ => None
      end
  end.

(** The error of [getAccountTransactions] when a transaction cannot be
    loaded and the rollback succeeds. *)
Definition HistoryBroken : error :=
  Errorf "getAccountTransactions: looping: error=%v rollback=%v"
         [VErr (Some NotFound); VErr None].

(** Transaction T13 was soft-deleted as a whole at time 6, header only; T14
    is intact.  Both have a line on account A. *)
Definition ledger3 : database :=
  mkDatabase
    [mkHeader "T13" 1 1 (Some 6); mkHeader "T14" 2 4 None]
    [mkRow "T13" "A" Transfer (-10) 2 None;
     mkRow "T13" "B" Transfer 10 3 None;
     mkRow "T14" "A" Transfer 7 5 None;
     mkRow "T14" "B" Transfer (-7) 6 None].

(** * sqlite.go: the path of the database file *)

(** [strings.Contains(s, substr)]: [substr] starts at some position of [s]. *)
Fixpoint Contains (s substr : string) : bool :=
  if String.prefix substr s then true
  else match s with
       | EmptyString => false
       | String _ s' => Contains s' substr
       end.

(** [func getSqlitePath() string]; [Getenv] is [os.Getenv]. *)
Definition getSqlitePath (Getenv : string -> string) : string :=
  let path := Getenv "SQLITE_DB_PATH" in
  if (path =? "")%string || Contains path ".." then "accounts.db" else path.

(** * The account repository: GetAccounts *)

(** A row of the table [accounts] of [migrations]. *)
Record accounts_row : Type := mkAccountsRow {
  a_account_id : string;
  a_customer_id : string;
  a_name : string;
  a_account_number : string;
  a_routing_number : string;
  a_status : string;
  a_type : string;
  a_created_at : time;
  a_closed_at : time;
  a_last_modified : time;
  a_deleted_at : option time
}.

(** The fields of [accounts.Account] that [GetAccounts] fills: the ten
    scanned columns and the balance. *)
Record accounts_Account : Type := mkAccountsAccount {
  A_ID : string;
  A_CustomerID : string;
  A_Name : string;
  A_AccountNumber : string;
  A_RoutingNumber : string;
  A_Status : string;
  A_Type : string;
  A_CreatedAt : time;
  A_ClosedAt : time;
  A_LastModified : time;
  A_Balance : Z
}.

(** The account a row scans into, with its balance set. *)
Definition scanned (r : accounts_row) (balance : Z) : accounts_Account :=
  mkAccountsAccount (a_account_id r) (a_customer_id r) (a_name r)
    (a_account_number r) (a_routing_number r) (a_status r) (a_type r)
    (a_created_at r) (a_closed_at r) (a_last_modified r) balance.

(** [err == sql.ErrNoRows] *)
Definition is_ErrNoRows (e : error) : bool :=
  match e with
  | DriverError msg => (msg =? "sql: no rows in result set")%string
  | Errorf _ _ => false
  end.

(** The condition [account_id in (?, ...) and deleted_at is null], with one
    placeholder per requested ID. *)
Definition requested (accountIDs : list string) (r : accounts_row) : bool :=
  existsb (fun id => (a_account_id r =? id)%string) accountIDs
  && is_null (a_deleted_at r).

(** Rows by [account_id], compared byte by byte, smallest first. *)
Fixpoint insert_by_account_id (r : accounts_row) (l : list accounts_row)
  : list accounts_row :=
  match l with
  | [] => [r]
  | x :: xs =>
      if String.leb (a_account_id r) (a_account_id x) then r :: x :: xs
      else x :: insert_by_account_id r xs
  end.

(** The rows of [select ... from accounts where account_id in (?, ...) and
    deleted_at is null].  The statement has no [order by]; [account_id] is
    the primary key of the table, and SQLite answers the [in] condition
    through the index of the key, which yields the rows in key order. *)
Definition selected_accounts (table : list accounts_row) (accountIDs : list string)
  : list accounts_row :=
  fold_right insert_by_account_id [] (filter (requested accountIDs) table).

(** [tx.Prepare(query)] for the accounts query: a statement that is nil when
    the call fails. *)
Definition Prepare_select_accounts (tx : Tx) : M (option unit * option error) :=
  e <- driver ;;
  match e with
  | Some err => ret (None, Some err)
  | None => ret (Some tt, None)
  end.

(** [stmt.Query(ids...)] on the accounts query. *)
Definition Query_accounts (stmt : option unit) (table : list accounts_row)
    (accountIDs : list string) : M (list accounts_row + error) :=
  match stmt with
  | None => panic
  | Some _ =>
      e <- driver ;;
      match e with
      | Some err => ret (inr err)
      | None => ret (inl (selected_accounts table accountIDs))
      end
  end.

(** The loop [for rows.Next()] of [GetAccounts]; a failed [rows.Scan] is
    taken to leave [a] at its zero value. *)
Fixpoint scanAccounts (tx : Tx) (rows : list accounts_row)
    (out : list accounts_Account) : M (list accounts_Account + error) :=
  match rows with
  | [] => ret (inl out)
  | r :: rest =>
      e <- driver ;;
      match e with
      | Some err =>
          if is_ErrNoRows err then scanAccounts tx rest out
          else
            rb <- tx_Rollback tx ;;
            ret (inr (Errorf "sqlite.GetAccounts: account=%q error=%v rollback=%v"
                             [VStr ""; VErr (Some err); VErr rb]))
      | None =>
          b <- getAccountBalance tx (a_account_id r) ;;
          match b with
          | (_, Some err) =>
              rb <- tx_Rollback tx ;;
              ret (inr (Errorf
                "sqlite.GetAccounts: getAccountBalance: account=%q error=%v rollback=%v"
                [VStr (a_account_id r); VErr (Some err); VErr rb]))
          | (balance, None) => scanAccounts tx rest (out ++ [scanned r balance])
          end
      end
  end.

(** [func (r *sqliteAccountRepository) GetAccounts(accountIDs []string)];
    [table] is the table [accounts] of the database file, which the function
    only reads.  When [Begin] fails the code calls [Rollback] on the nil
    transaction it got, which dereferences nil. *)
Definition GetAccounts (table : list accounts_row) (accountIDs : list string)
  : M (list accounts_Account * option error) :=
  match accountIDs with
  | [] => ret ([], None)
  | _ :: _ =>
      b <- db_Begin ;;
      match b with
      | inr err => panic
      | inl tx =>
          p <- Prepare_select_accounts tx ;;
          match p with
          | (_, Some err) =>
              rb <- tx_Rollback tx ;;
              ret ([], Some (Errorf "sqlite.GetAccounts: tx.Prepare error=%v rollback=%v"
                                    [VErr (Some err); VErr rb]))
          | (stmt, None) =>
              q <- Query_accounts stmt table accountIDs ;;
              match q with
              | inr err =>
                  rb <- tx_Rollback tx ;;
                  ret ([], Some (Errorf
                    "sqlite.GetAccounts: stmt query error=%v rollback=%v"
                    [VErr (Some err); VErr rb]))
              | inl rows =>
                  s <- scanAccounts tx rows [] ;;
                  match s with
                  | inr err => ret ([], Some err)
                  | inl out =>
                      e <- rows_Err ;;
                      match e with
                      | Some err =>
                          rb <- tx_Rollback tx ;;
                          ret ([], Some (Errorf
                            "sqlite.GetAccounts: scan error=%v rollback=%v"
                            [VErr (Some err); VErr rb]))
                      | None =>
                          c <- tx_Commit tx ;;
                          match c with
                          | Some err =>
                              rb <- tx_Rollback tx ;;
                              ret ([], Some (Errorf
                                "sqlite.GetAccounts: commit error=%v rollback=%v"
                                [VErr (Some err); VErr rb]))
                          | None => ret (out, None)
                          end
                      end
                  end
              end
          end
      end
  end.

(** * transactions.go: the handler that posts a transaction *)

Record createTransactionRequest : Type := mkRequest {
  req_Lines : list transactionLine
}.

(** [func (r *createTransactionRequest) asTransaction(id string) transaction] *)
Definition asTransaction (r : createTransactionRequest) (id : string) : M transaction :=
  now <- time_Now ;;
  ret (mkTransaction id now (req_Lines r)).

(** [checkBalance] reads the ID and the balance of an account. *)
Definition asAccount (a : accounts_Account) : Account :=
  mkAccount (A_ID a) (A_Balance a).

(** What the handler writes to the client: [moovhttp.Problem(w, err)], or
    status 200 with the transaction. *)
Inductive response : Type :=
| Problem (err : error)
| StatusOK (tx : transaction).

(** The handler returned by [createTransaction(logger, accountRepo,
    transactionRepo)], from the decoded request on: [req] is the request
    body once [json.Decode] succeeded, [id] the value of [base.ID()],
    [grabAccountIds] the helper of that name, [table] the table [accounts]
    that [accountRepo] reads. *)
Definition createTransactionHandler
    (grabAccountIds : list transactionLine -> list string)
    (table : list accounts_row) (req : createTransactionRequest) (id : string)
  : M response :=
  tx <- asTransaction req id ;;
  g <- GetAccounts table (grabAccountIds (Lines tx)) ;;
  match g with
  | (_, Some err) => ret (Problem err)
  | (accounts, None) =>
      match checkBalance (map asAccount accounts) tx with
      | Some err => ret (Problem err)
      | None =>
          e <- createTransaction tx ;;
          match e with
          | Some err => ret (Problem err)
          | None => ret (StatusOK tx)
          end
      end
  end.

(** The same accounts as [accounts1] below, B created before A. *)
Definition accounts2 : list accounts_row :=
  [mkAccountsRow "B" "cust2" "savings" "456" "987" "open" "Savings" 1 0 1 None;
   mkAccountsRow "A" "cust1" "checking" "123" "987" "open" "Checking" 2 0 2 None;
   mkAccountsRow "C" "cust2" "old" "789" "987" "closed" "Savings" 3 4 4 (Some 4)].

(** An account table: A and B are live, C was closed and soft-deleted. *)
Definition accounts1 : list accounts_row :=
  [mkAccountsRow "A" "cust1" "checking" "123" "987" "open" "Checking" 1 0 1 None;
   mkAccountsRow "B" "cust2" "savings" "456" "987" "open" "Savings" 2 0 2 None;
   mkAccountsRow "C" "cust2" "old" "789" "987" "closed" "Savings" 3 4 4 (Some 4)].

(** A helper to stand for [grabAccountIds] in examples: the account IDs of
    the lines, in line order. *)
Definition grabLineAccounts (lines : list transactionLine) : list string :=
  map AccountId lines.

Ltac unfold_accounts :=
  cbv beta iota delta [Prepare_select_accounts Query_accounts].

(** * sqlite.go: migrations *)

(** [migrations], the SQL run at start-up, in order. *)
Definition migrations : list string :=
  ["create table if not exists accounts(account_id primary key, customer_id, name, account_number, routing_number, status, type, created_at datetime, closed_at datetime, last_modified datetime, deleted_at datetime, unique(account_number, routing_number));";
   "create table if not exists transactions(transaction_id primart key, timestamp datetime, created_at datetime, deleted_at datetime);";
   "create table if not exists transaction_lines(transaction_id, account_id, purpose, amount integer, created_at datetime, deleted_at datetime);"].

(** The slice expression [row[:n]] on a string: it panics when the string
    has fewer than [n] bytes. *)
Definition slice_to (row : string) (n : nat) : M string :=
  if (String.length row <? n)%nat then panic else ret (substring 0 n row).

(** The loop [for i := range migrations] of [migrate], from index [i] on.
    With [create table if not exists] a successful [db.Exec] leaves the rows
    of the tables as they are; the calls to the logger and to
    [res.RowsAffected], whose result is only logged, are left out. *)
Fixpoint migrateFrom (i : Z) (rows : list string) : M (option error) :=
  match rows with
  | [] => ret None
  | row :: rest =>
      e <- driver ;;
      match e with
      | Some err =>
          head <- slice_to row 40 ;;
          ret (Some (Errorf "migration #%d [%s...] had problem: %v"
                            [VInt i; VStr head; VErr (Some err)]))
      | None => migrateFrom (i + 1) rest
      end
  end.

(** [func migrate(logger log.Logger, db *sql.DB) error] *)
Definition migrate : M (option error) := migrateFrom 0 migrations.

(** * Proof automation *)

(** Case analysis on the outcome of the next database call. *)
Ltac pop :=
  match goal with
  | |- context [match ?s with [] => _ | _ :: _ => _ end] =>
      is_var s; destruct s as [|[?|] ?]
  end.

Ltac unfold_calls :=
  cbv beta iota delta
    [bind ret panic driver rows_Err tx_Rollback tx_Commit db_Begin tx_Prepare
     Stmt_Close time_Now Exec_insert_transaction Exec_insert_transaction_line];
  simpl.

Ltac crunch := repeat (progress unfold_calls || pop).

Ltac pop_ok H :=
  match goal with
  | |- context [match ?s with [] => _ | _ :: _ => _ end] =>
      is_var s; destruct s as [|? s];
      [| let E := fresh "E" in
         apply Forall_cons_iff in H; destruct H as [E H]; subst ]
  end.

Ltac crunch_ok H := repeat (progress unfold_calls || pop_ok H).

(** * Properties *)

(** ** Machine arithmetic *)

Lemma two64_pos : 0 < two64.
Proof. reflexivity. Qed.

Lemma two64_two63 : two64 = 2 * two63.
Proof. reflexivity. Qed.

Lemma wrap64_in_range (z : Z) : in_int64 (wrap64 z).
Proof.
  unfold in_int64, wrap64.
  pose proof (Z.mod_pos_bound (z + two63) two64 two64_pos).
  rewrite two64_two63 in *. lia.
Qed.

Lemma wrap64_small (z : Z) : in_int64 z -> wrap64 z = z.
Proof.
  unfold in_int64, wrap64. intros H.
  rewrite Z.mod_small; rewrite ?two64_two63; lia.
Qed.

Lemma wrap64_add_l (a b : Z) : wrap64 (wrap64 a + b) = wrap64 (a + b).
Proof.
  unfold wrap64. f_equal.
  replace ((a + two63) mod two64 - two63 + b + two63)
    with ((a + two63) mod two64 + b) by ring.
  rewrite Zplus_mod_idemp_l. f_equal. ring.
Qed.

Lemma wrap64_zero_iff (z : Z) : wrap64 z = 0 <-> z mod two64 = 0.
Proof.
  unfold wrap64. split; intros H.
  - assert (E : (z + two63) mod two64 = two63) by lia.
    assert (D : z mod two64 = (z + two63 - two63) mod two64) by (f_equal; ring).
    rewrite D, Zminus_mod, E. reflexivity.
  - rewrite Zplus_mod, H. reflexivity.
Qed.

Lemma in_int64b_spec (z : Z) : in_int64b z = true <-> in_int64 z.
Proof. unfold in_int64b, in_int64. rewrite andb_true_iff. lia. Qed.

(** ** The transaction validator *)

Lemma sumLoop_wrap (lines : list transactionLine) (s : Z) :
  wrap64 (sumLoop s lines) = wrap64 (s + total lines).
Proof.
  revert s. induction lines as [|l rest IH]; intros s; simpl.
  - f_equal. ring.
  - rewrite IH, wrap64_add_l. f_equal. ring.
Qed.

Lemma sumLoop_in_range (lines : list transactionLine) (s : Z) :
  in_int64 s -> in_int64 (sumLoop s lines).
Proof.
  revert s. induction lines as [|l rest IH]; intros s H; simpl.
  - exact H.
  - apply IH, wrap64_in_range.
Qed.

(** The loop of [validate] leaves the exact sum reduced to 64 bits. *)
Lemma sumLoop_total (lines : list transactionLine) :
  sumLoop 0 lines = wrap64 (total lines).
Proof.
  rewrite <- (wrap64_small (sumLoop 0 lines)).
  - apply sumLoop_wrap.
  - apply sumLoop_in_range. unfold in_int64, two63. lia.
Qed.

Lemma validate_None_iff (t : transaction) :
  validate t = None <-> total (Lines t) mod two64 = 0.
Proof.
  unfold validate. rewrite <- wrap64_zero_iff, <- sumLoop_total.
  destruct (sumLoop 0 (Lines t) =? 0) eqn:E.
  - apply Z.eqb_eq in E. tauto.
  - apply Z.eqb_neq in E. split; [discriminate | contradiction].
Qed.

Lemma createTransaction_invalid (t : transaction) (err : error) (w : world) :
  validate t = Some err ->
  createTransaction t w = (Val (Some (invalidTransaction t err)), w).
Proof. intros H. unfold createTransaction. rewrite H. reflexivity. Qed.

Lemma createTransaction_valid (t : transaction) (w : world) :
  fst (createTransaction t w) = Val None -> validate t = None.
Proof.
  destruct (validate t) as [err|] eqn:E; [|reflexivity].
  rewrite (createTransaction_invalid t err w E). discriminate.
Qed.

(** C1, as stated, fails: the four amounts add up to 2^64, not to zero, and
    the 64-bit accumulator of [validate] wraps to zero, so the transaction is
    accepted. *)
Lemma validate_overflow_counterexample :
  Forall (fun l => in_int64 (Amount l)) (Lines overflowing) /\
  total (Lines overflowing) = two64 /\
  total (Lines overflowing) <> 0 /\
  validate overflowing = None.
Proof.
  repeat split; try discriminate; try reflexivity.
  repeat constructor; discriminate.
Qed.

(** C1 (amended): [validate] succeeds exactly when the sum of the line
    amounts is zero modulo 2^64, the sum being accumulated in a 64-bit int;
    for a sum strictly between -2^64 and 2^64 that is the sum being exactly
    zero.  [createTransaction] succeeds only in that case, and otherwise
    returns the invalid-transaction error wrapping the one of [validate],
    with the world untouched: no database call was made. *)
Theorem validate_zero_sum (t : transaction) (w : world) :
  (validate t = None <-> total (Lines t) mod two64 = 0) /\
  (- two64 < total (Lines t) < two64 ->
     (validate t = None <-> total (Lines t) = 0)) /\
  (fst (createTransaction t w) = Val None -> total (Lines t) mod two64 = 0) /\
  (total (Lines t) mod two64 <> 0 ->
     exists err,
       validate t = Some err /\
       createTransaction t w = (Val (Some (invalidTransaction t err)), w)).
Proof.
  split; [apply validate_None_iff|]. split; [|split].
  - intros R. rewrite validate_None_iff. split; intros H.
    + apply Z.mod_divide in H; [|discriminate].
      destruct H as [k Hk]. unfold two64 in *. lia.
    + rewrite H. reflexivity.
  - intros H. apply validate_None_iff. exact (createTransaction_valid t w H).
  - intros H. destruct (validate t) as [err|] eqn:E.
    + exists err. split; [reflexivity|]. apply createTransaction_invalid, E.
    + apply validate_None_iff in E. contradiction.
Qed.

Lemma validate_zero_sum_witness :
  validate payout = None /\
  exists err,
    validate unbalanced = Some err /\
    createTransaction unbalanced quiet_world
    = (Val (Some (invalidTransaction unbalanced err)), quiet_world).
Proof.
  split.
  - apply (proj1 (validate_zero_sum payout quiet_world)). reflexivity.
  - apply (proj2 (proj2 (proj2 (validate_zero_sum unbalanced quiet_world)))).
    discriminate.
Defined.

(** *** Empty transactions *)

(** C4, as stated, fails: a transaction without lines passes [validate]. *)
Lemma validate_empty_counterexample :
  Lines no_lines = [] /\ validate no_lines = None.
Proof. split; reflexivity. Qed.

(** C4 (amended): for every transaction with zero lines [validate] succeeds,
    the empty sum being zero; it is [checkBalance] that refuses a transaction
    without lines, as invalid input. *)
Theorem validate_empty (id : string) (ts : time) (accounts : list Account) :
  validate (mkTransaction id ts []) = None /\
  checkBalance accounts (mkTransaction id ts [])
  = Some (InvalidCheckInput accounts (mkTransaction id ts [])).
Proof.
  split; [reflexivity|].
  unfold checkBalance. simpl. rewrite orb_true_r. reflexivity.
Qed.

(** *** Line purposes *)

Lemma enumerated_iff (p : TransactionPurpose) :
  enumerated p = true <-> In p [ACHCredit; ACHDebit; Fee; Interest; Transfer; Wire].
Proof.
  unfold enumerated. rewrite !orb_true_iff, !String.eqb_eq. simpl.
  intuition congruence.
Qed.

Lemma sumLoop_amounts (l1 l2 : list transactionLine) (s : Z) :
  map Amount l1 = map Amount l2 -> sumLoop s l1 = sumLoop s l2.
Proof.
  revert l2 s. induction l1 as [|x l1 IH]; intros [|y l2] s H;
    simpl in *; try discriminate; [reflexivity|].
  injection H as Hxy Hrest. rewrite Hxy. apply IH, Hrest.
Qed.

(** C5, as stated, fails: the first line carries a purpose the Line Validator
    rejects, and [validate] accepts the transaction. *)
Lemma validate_purpose_counterexample :
  (exists l err, In l (Lines mislabelled) /\
                 TransactionPurpose_validate (Purpose l) = Some err) /\
  validate mislabelled = None.
Proof.
  split; [|reflexivity].
  exists (mkLine "A" "bogus" (-5)),
         (Errorf "unknown TransactionPurpose %q" [VStr "bogus"]).
  split; [left; reflexivity | reflexivity].
Qed.

(** C5 (amended): [validate] does not call the Line Validator; its result is
    fixed by the transaction ID and the line amounts alone, so no purpose or
    account ID makes it fail.  The Line Validator on its own accepts exactly
    the six enumerated purposes. *)
Theorem validate_ignores_lines :
  (forall t1 t2 : transaction,
      ID t1 = ID t2 ->
      map Amount (Lines t1) = map Amount (Lines t2) ->
      validate t1 = validate t2) /\
  (forall p : TransactionPurpose,
      TransactionPurpose_validate p = None <->
      In p [ACHCredit; ACHDebit; Fee; Interest; Transfer; Wire]).
Proof.
  split.
  - intros t1 t2 Hid Ham. unfold validate, len.
    rewrite (sumLoop_amounts _ _ 0 Ham), Hid.
    replace (List.length (Lines t1)) with (List.length (Lines t2)); [reflexivity|].
    rewrite <- (length_map Amount (Lines t2)), <- Ham. apply length_map.
  - intros p. rewrite <- enumerated_iff. unfold TransactionPurpose_validate.
    destruct (enumerated p); split; congruence.
Qed.

Lemma validate_ignores_lines_witness :
  validate mislabelled = validate relabelled /\
  TransactionPurpose_validate Wire = None.
Proof.
  split.
  - apply (proj1 validate_ignores_lines mislabelled relabelled); reflexivity.
  - apply (proj2 validate_ignores_lines Wire). simpl. tauto.
Defined.

(** ** The funds check *)

(** The inner loop stops at the first line of the account. *)
Lemma scanLines_firstLine (a : Account) (lines : list transactionLine) :
  scanLines a lines =
  match firstLine (Account_ID a) lines with
  | None => NoMatch
  | Some l => if Balance a <? int64 (Amount l) then Insufficient else Sufficient
  end.
Proof.
  unfold firstLine. induction lines as [|l rest IH]; simpl; [reflexivity|].
  destruct (Account_ID a =? AccountId l)%string; [reflexivity | exact IH].
Qed.

Lemma checkBalance_checked (accounts : list Account) (tx : transaction) :
  (2 <= List.length accounts)%nat -> Lines tx <> [] ->
  checkBalance accounts tx = checkAccounts accounts (Lines tx).
Proof.
  intros Ha Hl. unfold checkBalance, len.
  destruct (Lines tx) as [|l rest]; [contradiction|].
  replace (Z.of_nat (List.length accounts) <? 2) with false
    by (symmetry; apply Z.ltb_ge; lia).
  reflexivity.
Qed.

Lemma checkAccounts_nonpositive (accounts : list Account)
    (lines : list transactionLine) :
  Forall (fun a => Balance a <= 0) accounts -> checkAccounts accounts lines = None.
Proof.
  induction 1 as [|a rest Ha _ IH]; simpl; [reflexivity|].
  replace (Balance a >? 0) with false; [exact IH|].
  symmetry. rewrite Z.gtb_ltb. apply Z.ltb_ge, Ha.
Qed.

(** C6: when at least two accounts are given, the transaction has a line and
    no account has a positive balance, [checkBalance] returns nil, whatever
    the lines debit. *)
Theorem checkBalance_nonpositive (accounts : list Account) (tx : transaction) :
  (2 <= List.length accounts)%nat ->
  Lines tx <> [] ->
  Forall (fun a => Balance a <= 0) accounts ->
  checkBalance accounts tx = None.
Proof.
  intros Ha Hl Hb. rewrite checkBalance_checked by assumption.
  apply checkAccounts_nonpositive, Hb.
Qed.

Lemma checkBalance_nonpositive_witness : checkBalance drained withdrawal = None.
Proof.
  apply (checkBalance_nonpositive drained withdrawal).
  - simpl. lia.
  - discriminate.
  - repeat constructor; simpl; lia.
Defined.

Lemma checkAccounts_first_line (accounts : list Account)
    (lines1 lines2 : list transactionLine) :
  (forall a, In a accounts -> Balance a > 0 ->
             firstLine (Account_ID a) lines1 = firstLine (Account_ID a) lines2) ->
  checkAccounts accounts lines1 = checkAccounts accounts lines2.
Proof.
  induction accounts as [|a rest IH]; intros H; simpl; [reflexivity|].
  assert (IH' : checkAccounts rest lines1 = checkAccounts rest lines2).
  { apply IH. intros b Hb. apply H. right. exact Hb. }
  destruct (Balance a >? 0) eqn:E; [|exact IH'].
  rewrite !scanLines_firstLine, (H a); [|left; reflexivity|].
  - rewrite IH'. reflexivity.
  - rewrite Z.gtb_ltb in E. apply Z.ltb_lt in E. lia.
Qed.

(** C10: under the precondition of the funds check, the inner loop settles an
    account on the first line, in transaction order, that carries its ID, and
    looks at no later one; so two transactions that agree on that first line
    for every positive-balance account get the same answer, whatever else
    they post to the account. *)
Theorem checkBalance_first_line (accounts : list Account) (tx1 tx2 : transaction) :
  (2 <= List.length accounts)%nat ->
  Lines tx1 <> [] -> Lines tx2 <> [] ->
  (forall a, In a accounts -> Balance a > 0 ->
             firstLine (Account_ID a) (Lines tx1)
             = firstLine (Account_ID a) (Lines tx2)) ->
  (forall a, scanLines a (Lines tx1) =
             match firstLine (Account_ID a) (Lines tx1) with
             | None => NoMatch
             | Some l =>
                 if Balance a <? int64 (Amount l) then Insufficient else Sufficient
             end) /\
  checkBalance accounts tx1 = checkBalance accounts tx2.
Proof.
  intros Ha H1 H2 H. split.
  - intros a. apply scanLines_firstLine.
  - rewrite !checkBalance_checked by assumption.
    apply checkAccounts_first_line, H.
Qed.

Lemma checkBalance_first_line_witness :
  checkBalance funded single_credit = checkBalance funded repeated_credit.
Proof.
  apply (checkBalance_first_line funded single_credit repeated_credit).
  - simpl. lia.
  - discriminate.
  - discriminate.
  - intros a [Ha|[Ha|[]]] Hb; subst a; simpl in *; [reflexivity | lia].
Defined.

(** The later line of account A alone would be refused: A holds 100 and the
    line posts 1000; behind a first line of 50 it goes unseen. *)
Example later_line_unseen :
  checkBalance funded (mkTransaction "T9" 7
                         [mkLine "A" ACHCredit 1000; mkLine "B" ACHDebit (-1000)])
  = Some (InsufficientFunds "A") /\
  checkBalance funded repeated_credit = None.
Proof. split; reflexivity. Qed.

(** [checkBalance] reports insufficient funds only for a positive amount
    above a positive balance: the comparison is with the signed amount. *)
Lemma checkAccounts_insufficient (accounts : list Account)
    (lines : list transactionLine) (id : string) :
  checkAccounts accounts lines = Some (InsufficientFunds id) ->
  exists a l,
    In a accounts /\ Account_ID a = id /\
    firstLine id lines = Some l /\ 0 < Balance a < int64 (Amount l).
Proof.
  induction accounts as [|a rest IH]; simpl; [discriminate|].
  assert (R : checkAccounts rest lines = Some (InsufficientFunds id) ->
              exists a0 l, (a = a0 \/ In a0 rest) /\ Account_ID a0 = id /\
                firstLine id lines = Some l /\ 0 < Balance a0 < int64 (Amount l)).
  { intros H. destruct (IH H) as (b & l & Hb & Hr). exists b, l. tauto. }
  destruct (Balance a >? 0) eqn:E; [|exact R].
  rewrite scanLines_firstLine.
  destruct (firstLine (Account_ID a) lines) as [l|] eqn:F; [|discriminate].
  destruct (Balance a <? int64 (Amount l)) eqn:C; [|exact R].
  intros H. injection H as Hid. exists a, l.
  rewrite Z.gtb_ltb in E. apply Z.ltb_lt in E. apply Z.ltb_lt in C.
  subst id. repeat split; try assumption. left; reflexivity.
Qed.

(** C3 does not hold of the code: account A holds 100, the transaction debits
    it by 500, the precondition of the check is met, and [checkBalance]
    returns nil.  The test [Balance < int64(Amount)] is never true of a
    negative amount and a positive balance. *)
Theorem checkBalance_overdraft_accepted :
  validate overdraft = None /\
  (2 <= List.length funded)%nat /\ Lines overdraft <> [] /\
  (exists a l, In a funded /\ Balance a > 0 /\
               In l (Lines overdraft) /\ AccountId l = Account_ID a /\
               Amount l < 0 /\ Balance a < Z.abs (Amount l)) /\
  checkBalance funded overdraft = None.
Proof.
  split; [reflexivity|]. split; [simpl; lia|]. split; [discriminate|].
  split; [|reflexivity].
  exists (mkAccount "A" 100), (mkLine "A" ACHDebit (-500)).
  simpl. repeat split; try lia; left; reflexivity.
Qed.

(** ** The ledger store *)

(** The line loop of [createTransaction] never touches the committed store;
    when it runs to its end the open transaction holds one more row per
    line. *)
Lemma insertLines_spec (t : transaction) (lines : list transactionLine) :
  forall (tx : Tx) (w : world),
    match insertLines t lines tx w with
    | (Val (inl tx'), w') =>
        tx' = mkDatabase (transactions tx)
                (transaction_lines tx ++ lineRows (ID t) lines (clock w))
        /\ store w' = store w
    | (_, w') => store w' = store w
    end.
Proof.
  induction lines as [|l rest IH]; intros tx w.
  - simpl. unfold ret. rewrite app_nil_r. destruct tx; split; reflexivity.
  - destruct w as [st s c]. simpl. crunch; try reflexivity;
    match goal with
    | |- context [insertLines t rest ?tx' ?w'] =>
        specialize (IH tx' w'); destruct (insertLines t rest tx' w')
          as [[[tx''|err]|] w3]
    end; simpl in *; try exact IH;
    (destruct IH as [E S]; split; [|exact S]);
    rewrite E, <- app_assoc; reflexivity.
Qed.

(** Posting is all or nothing: whatever the outcomes of the database calls,
    either [createTransaction] returns nil and the committed store holds the
    header and every line of the transaction, or the committed store is the
    one it started from. *)
Lemma createTransaction_atomic (t : transaction) (w : world) :
  match createTransaction t w with
  | (Val None, w') => store w' = posted (store w) t (clock w)
  | (_, w') => store w' = store w
  end.
Proof.
  unfold createTransaction. destruct (validate t); [reflexivity|].
  destruct w as [st s c]. crunch; try reflexivity;
  match goal with
  | |- context [insertLines t ?ls ?tx' ?w'] =>
      pose proof (insertLines_spec t ls tx' w') as H;
      destruct (insertLines t ls tx' w') as [[[tx''|err]|] [st3 s3 c3]]
  end; simpl in *; try exact H;
  destruct H as [E S]; subst; crunch; reflexivity.
Qed.

(** *** A failed Prepare in the line loop *)

Lemma insertLines_prepare_panics (t : transaction) (e : error)
    (rest : list (option error)) (st : database) (k : nat) :
  forall (lines : list transactionLine) (tx : Tx) (c : time),
    (k < List.length lines)%nat ->
    fst (insertLines t lines tx
           (mkWorld st (repeat None (2 * k) ++ Some e :: rest) c)) = Panic.
Proof.
  induction k as [|k IH]; intros [|l lines] tx c Hk; simpl in Hk; try lia.
  - reflexivity.
  - replace (2 * S k)%nat with (S (S (2 * k))) by lia.
    change (repeat None (S (S (2 * k))) ++ Some e :: rest)
      with (None :: None :: (repeat None (2 * k) ++ Some e :: rest)).
    remember (repeat None (2 * k) ++ Some e :: rest) as s eqn:Es in *.
    simpl insertLines. unfold_calls.
    apply IH. lia.
Qed.

(** C2 does not hold of the code: when the Prepare of a line insert fails,
    [createTransaction] calls [Close] on the nil statement that Prepare
    returned and panics; it returns no error, and [tx.Rollback] is never
    reached.  The failing Prepare is call number [3 + 2 * k] after Begin and
    the Prepare and Exec of the header and of [k] earlier lines.  The
    committed store is left as it was. *)
Theorem createTransaction_line_prepare_panics (t : transaction) (e : error)
    (rest : list (option error)) (st : database) (c : time) (k : nat) :
  validate t = None ->
  (k < List.length (Lines t))%nat ->
  let w := mkWorld st (repeat None (3 + 2 * k) ++ Some e :: rest) c in
  fst (createTransaction t w) = Panic /\
  store (snd (createTransaction t w)) = st.
Proof.
  intros Hv Hk w. assert (P : fst (createTransaction t w) = Panic).
  { pose proof (insertLines_prepare_panics t e rest st k) as H.
    unfold w, createTransaction. rewrite Hv.
    change (repeat None (3 + 2 * k) ++ Some e :: rest)
      with (None :: None :: None :: (repeat None (2 * k) ++ Some e :: rest)).
    remember (repeat None (2 * k) ++ Some e :: rest) as s eqn:Es in *.
    unfold_calls.
    match goal with
    | |- context [insertLines t ?ls ?tx' ?w'] =>
        specialize (H ls tx' (c + 1) Hk); revert H;
        destruct (insertLines t ls tx' w') as [[r|] w3]
    end; simpl; intros H; [discriminate | reflexivity]. }
  split; [exact P|].
  pose proof (createTransaction_atomic t w) as A.
  destruct (createTransaction t w) as [[[err|]|] w']; simpl in *;
    try discriminate; exact A.
Qed.

(** The third line of [payout] cannot be prepared. *)
Lemma createTransaction_line_prepare_panics_witness :
  fst (createTransaction payout
         (mkWorld empty_ledger
            [None; None; None; None; None; None; None; Some boom] 0)) = Panic /\
  store (snd (createTransaction payout
         (mkWorld empty_ledger
            [None; None; None; None; None; None; None; Some boom] 0)))
  = empty_ledger.
Proof.
  apply (createTransaction_line_prepare_panics payout boom [] empty_ledger 0 2).
  - reflexivity.
  - simpl. lia.
Defined.

(** The sibling paths do report the cause and the outcome of the rollback:
    here the Exec of the third line insert fails and the rollback fails
    too. *)
Example createTransaction_line_exec_fails :
  createTransaction payout
    (mkWorld empty_ledger
       [None; None; None; None; None; None; None; None;
        Some boom; Some (DriverError "rollback failed")] 0)
  = (Val (Some (Errorf
       "createTransaction: transaction=%q account=%q insert: error=%v rollback=%v"
       [VStr "T2"; VStr "C"; VErr (Some boom);
        VErr (Some (DriverError "rollback failed"))])),
     mkWorld empty_ledger [] 4).
Proof. reflexivity. Qed.

(** *** Runs in which every database call succeeds *)

Lemma ok_script_nil : ok_script [].
Proof. constructor. Qed.

Lemma insertLines_ok (t : transaction) (lines : list transactionLine) :
  forall (tx : Tx) (w : world),
    ok_script (script w) ->
    match insertLines t lines tx w with
    | (Val (inl _), w') => ok_script (script w')
    | _ => False
    end.
Proof.
  induction lines as [|l rest IH]; intros tx [st s c] H; simpl in *.
  - exact H.
  - crunch_ok H; apply IH; simpl; try assumption; apply ok_script_nil.
Qed.

Lemma createTransaction_ok (t : transaction) (w : world) :
  ok_script (script w) ->
  validate t = None ->
  match createTransaction t w with
  | (Val None, w') => ok_script (script w')
  | _ => False
  end.
Proof.
  destruct w as [st s c]. intros H Hv. simpl in H.
  unfold createTransaction. rewrite Hv.
  crunch_ok H;
  match goal with
  | |- context [insertLines t ?ls ?tx' ?w'] =>
      pose proof (insertLines_ok t ls tx' w') as I;
      destruct (insertLines t ls tx' w') as [[[tx''|err]|] [st3 s3 c3]]
  end; simpl in I;
  try (exfalso; apply I; assumption || apply ok_script_nil);
  (assert (H3 : ok_script s3) by (apply I; assumption || apply ok_script_nil));
  crunch_ok H3; assumption || apply ok_script_nil.
Qed.

Lemma scanLineRows_ok (transactionId : string) (rows : list transaction_lines_row) :
  forall (acc : list transactionLine) (w : world),
    ok_script (script w) ->
    exists w',
      scanLineRows transactionId rows acc w = (Val (inl (acc ++ map lineOf rows)), w')
      /\ ok_script (script w') /\ store w' = store w.
Proof.
  induction rows as [|r rest IH]; intros acc [st s c] H; simpl in *.
  - rewrite app_nil_r. eexists. split; [reflexivity|]. split; [exact H|reflexivity].
  - crunch_ok H.
    + destruct (IH (acc ++ [mkLine (r_account_id r) (r_purpose r) (r_amount r)])
                  (mkWorld st [] c) ok_script_nil) as (w' & E & R).
      rewrite E, <- app_assoc. exists w'. split; [reflexivity | exact R].
    + destruct (IH (acc ++ [mkLine (r_account_id r) (r_purpose r) (r_amount r)])
                  (mkWorld st s c) H) as (w' & E & R).
      rewrite E, <- app_assoc. exists w'. split; [reflexivity | exact R].
Qed.

(** With no failing call, [getTransaction] returns the first visible header
    of the ID with the visible lines of the ID, in table order. *)
Lemma getTransaction_ok (tx : Tx) (transactionId : string) (h : transactions_row)
    (w : world) :
  ok_script (script w) ->
  visible_header tx transactionId = Some h ->
  fst (getTransaction tx transactionId w)
  = Val (Some (mkTransaction transactionId (h_timestamp h)
                 (map lineOf (visible_rows tx transactionId))), None).
Proof.
  destruct w as [st s c]. intros H Hh. simpl in H.
  unfold getTransaction, QueryRow_timestamp, Query_lines.
  unfold visible_header in Hh. unfold visible_rows.
  crunch_ok H; rewrite ?Hh; crunch_ok H;
  match goal with
  | |- context [scanLineRows ?id ?rows ?acc ?w'] =>
      let K := fresh "K" in
      assert (K : ok_script (script w')) by (simpl; assumption || apply ok_script_nil);
      destruct (scanLineRows_ok id rows acc w' K) as ([st4 s4 c4] & E4 & K4 & _);
      rewrite E4; simpl in K4
  end; crunch_ok K4; reflexivity.
Qed.

(** *** Reading a posted transaction back *)

Lemma lineOf_lineRows (id : string) (lines : list transactionLine) (c : time) :
  map lineOf (lineRows id lines c) = lines.
Proof.
  revert c. induction lines as [|[a p n] rest IH]; intros c; simpl; [reflexivity|].
  unfold lineOf at 1. simpl. rewrite IH. reflexivity.
Qed.

Lemma filter_lineRows (id : string) (lines : list transactionLine) (c : time) :
  filter (fun r => (r_transaction_id r =? id)%string && is_null (r_deleted_at r))
         (lineRows id lines c)
  = lineRows id lines c.
Proof.
  revert c. induction lines as [|l rest IH]; intros c; simpl; [reflexivity|].
  rewrite String.eqb_refl, IH. reflexivity.
Qed.

Lemma filter_none {A : Type} (f : A -> bool) (l : list A) :
  (forall x, In x l -> f x = false) -> filter f l = [].
Proof.
  induction l as [|x l IH]; intros H; simpl; [reflexivity|].
  rewrite (H x (or_introl eq_refl)). apply IH. intros y Hy. apply H. right. exact Hy.
Qed.

Lemma find_app_last {A : Type} (f : A -> bool) (l : list A) (x : A) :
  f x = true -> exists y, find f (l ++ [x]) = Some y.
Proof.
  intros Hx. induction l as [|a l IH]; simpl.
  - rewrite Hx. exists x. reflexivity.
  - destruct (f a); [exists a; reflexivity | exact IH].
Qed.

Lemma visible_rows_posted (db : database) (t : transaction) (c : time) :
  unused (ID t) db ->
  visible_rows (posted db t c) (ID t) = lineRows (ID t) (Lines t) (c + 1).
Proof.
  intros U. unfold visible_rows, posted. simpl.
  rewrite filter_app, filter_lineRows, filter_none; [reflexivity|].
  intros r Hr. destruct (r_transaction_id r =? ID t)%string eqn:E; [|reflexivity].
  apply String.eqb_eq in E. specialize (U r Hr E).
  destruct (r_deleted_at r); [reflexivity | contradiction].
Qed.

(** C7 does not hold of the code: the ledger holds transaction T2 with three
    lines, a second transaction of two lines is posted under the same ID,
    and [createTransaction] commits it; reading T2 back then returns the
    five lines of both, not the two that were posted.  The second header
    insert is accepted because [migrations] declares the column as
    [transaction_id primart key], a slip for [primary key] (the table
    [accounts] declares [account_id primary key]), so that no key guards
    the IDs of [transactions]. *)
Theorem createTransaction_duplicate_id :
  createTransaction payout quiet_world = (Val None, mkWorld ledger1 [] 4) /\
  validate reused = None /\
  fst (createTransaction reused (mkWorld ledger1 [] 4)) = Val None /\
  fst (getTransaction
         (store (snd (createTransaction reused (mkWorld ledger1 [] 4))))
         (ID reused)
         (snd (createTransaction reused (mkWorld ledger1 [] 4))))
  = Val (Some (mkTransaction "T2" 7 (Lines payout ++ Lines reused)), None) /\
  ~ Permutation (Lines payout ++ Lines reused) (Lines reused).
Proof.
  repeat split.
  intros P. apply Permutation_length in P. discriminate.
Qed.

(** X22: the round trip under an unused ID.  For every transaction that
    passes [validate] and whose ID no visible line of the ledger carries yet,
    when no database call fails [createTransaction] commits it and
    [getTransaction] on the committed store returns, under the same ID, the
    lines of the transaction up to order, with the same total. *)
Theorem createTransaction_roundtrip (t : transaction) (w : world) :
  ok_script (script w) ->
  validate t = None ->
  unused (ID t) (store w) ->
  exists w', createTransaction t w = (Val None, w') /\
  exists t', fst (getTransaction (store w') (ID t) w') = Val (Some t', None) /\
             ID t' = ID t /\
             Permutation (Lines t') (Lines t) /\
             total (Lines t') = total (Lines t).
Proof.
  intros H Hv U.
  pose proof (createTransaction_ok t w H Hv) as K.
  pose proof (createTransaction_atomic t w) as A.
  destruct (createTransaction t w) as [[[err|]|] w']; try contradiction.
  exists w'. split; [reflexivity|].
  destruct (find_app_last
              (fun h => (h_transaction_id h =? ID t)%string && is_null (h_deleted_at h))
              (transactions (store w))
              (mkHeader (ID t) (Timestamp t) (clock w) None)) as [h Hh].
  { simpl. rewrite String.eqb_refl. reflexivity. }
  assert (G : fst (getTransaction (store w') (ID t) w')
              = Val (Some (mkTransaction (ID t) (h_timestamp h) (Lines t)), None)).
  { rewrite (getTransaction_ok (store w') (ID t) h w' K).
    - rewrite A, (visible_rows_posted _ _ _ U), lineOf_lineRows. reflexivity.
    - rewrite A. exact Hh. }
  eexists. split; [exact G|]. simpl. repeat split. apply Permutation_refl.
Qed.

Lemma createTransaction_roundtrip_witness :
  exists w', createTransaction refund (mkWorld ledger1 [None; None] 4)
             = (Val None, w') /\
  exists t', fst (getTransaction (store w') (ID refund) w') = Val (Some t', None) /\
             ID t' = ID refund /\
             Permutation (Lines t') (Lines refund) /\
             total (Lines t') = total (Lines refund).
Proof.
  apply (createTransaction_roundtrip refund (mkWorld ledger1 [None; None] 4)).
  - repeat constructor.
  - reflexivity.
  - intros r [E|[E|[E|[]]]]; subst r; discriminate.
Defined.

(** *** Balances *)

Lemma ledger_balance_rows (db : database) (accountId : string) :
  ledger_balance db accountId = zsum (map r_amount (balance_rows db accountId)).
Proof.
  unfold ledger_balance, balance_rows.
  induction (transaction_lines db) as [|r rest IH]; simpl; [reflexivity|].
  destruct ((r_account_id r =? accountId)%string && is_null (r_deleted_at r));
    simpl; rewrite IH; reflexivity.
Qed.

Lemma sqlite_sum_exact (amounts : list Z) :
  forall acc : Z,
    (forall n : nat, in_int64 (acc + zsum (firstn n amounts))) ->
    sqlite_sum acc amounts = Some (acc + zsum amounts).
Proof.
  induction amounts as [|a rest IH]; intros acc H; simpl.
  - f_equal. ring.
  - pose proof (H 1%nat) as H1. simpl in H1.
    replace (acc + (a + 0)) with (acc + a) in H1 by ring.
    apply in_int64b_spec in H1. rewrite H1, IH.
    + f_equal. ring.
    + intros n. specialize (H (S n)). simpl in H.
      replace (acc + a + zsum (firstn n rest))
        with (acc + (a + zsum (firstn n rest))) by ring.
      exact H.
Qed.







(** When the running sum leaves the 64-bit range the query fails and the
    function returns its error: here on two lines of 2^62 each. *)
Example getAccountBalance_overflow :
  fst (getAccountBalance
         (mkDatabase [] [mkRow "T" "A" Transfer (2 ^ 62) 0 None;
                         mkRow "U" "A" Transfer (2 ^ 62) 1 None])
         "A" quiet_world)
  = Val (0, Some (DriverError "integer overflow")).
Proof. reflexivity. Qed.

(** *** Soft-deleted lines *)

(** C9 does not hold of the code: the only line of account A is soft-deleted,
    and [getAccountTransactions] still returns its transaction for A.  The
    statement that lists the transaction IDs of an account has no
    [deleted_at is null] condition, unlike the three other queries. *)
Theorem getAccountTransactions_soft_deleted :
  (forall r, In r (transaction_lines ledger2) ->
             r_account_id r = "A" -> r_deleted_at r <> None) /\
  getAccountTransactions "A" (mkWorld ledger2 [] 9)
  = (Val ([mkTransaction "T11" 1 [mkLine "B" Transfer 10]], None),
     mkWorld ledger2 [] 9).
Proof.
  split; [|reflexivity].
  intros r [E|[E|[]]]; subst r; simpl; discriminate.
Qed.

(** * Further properties of the posting engine *)

(** ** Posting *)

Lemma createTransaction_store (t : transaction) (w : world) :
  (fst (createTransaction t w) = Val None ->
   store (snd (createTransaction t w)) = posted (store w) t (clock w)) /\
  (fst (createTransaction t w) <> Val None ->
   store (snd (createTransaction t w)) = store w).
Proof.
  pose proof (createTransaction_atomic t w) as A.
  destruct (createTransaction t w) as [[[err|]|] w']; simpl in *; split;
    intros H; try discriminate; try exact A; contradiction H; reflexivity.
Qed.

Lemma zero_mod_small (z : Z) : - two64 < z < two64 -> z mod two64 = 0 -> z = 0.
Proof.
  intros R H. apply Z.mod_divide in H; [|discriminate].
  destruct H as [k Hk]. unfold two64 in *. lia.
Qed.

(** X1: posting is all or nothing under every outcome of the database calls:
    when [createTransaction] returns nil the committed ledger is the old one
    followed by one header and one row per line, in line order; in every
    other case (an error or a panic) the committed ledger is unchanged. *)
Theorem createTransaction_all_or_nothing (t : transaction) (w : world) :
  (fst (createTransaction t w) = Val None ->
   store (snd (createTransaction t w)) = posted (store w) t (clock w)) /\
  (fst (createTransaction t w) <> Val None ->
   store (snd (createTransaction t w)) = store w).
Proof. exact (createTransaction_store t w). Qed.

Lemma createTransaction_all_or_nothing_witness :
  store (snd (createTransaction payout quiet_world)) = ledger1 /\
  store (snd (createTransaction unbalanced quiet_world)) = empty_ledger.
Proof.
  split.
  - apply (proj1 (createTransaction_all_or_nothing payout quiet_world)).
    reflexivity.
  - apply (proj2 (createTransaction_all_or_nothing unbalanced quiet_world)).
    discriminate.
Defined.

(** X2: a transaction that passes [validate] is committed whenever no
    database call fails. *)
Theorem createTransaction_commits (t : transaction) (w : world) :
  ok_script (script w) ->
  validate t = None ->
  fst (createTransaction t w) = Val None /\
  store (snd (createTransaction t w)) = posted (store w) t (clock w).
Proof.
  intros H Hv.
  pose proof (createTransaction_ok t w H Hv) as K.
  pose proof (createTransaction_atomic t w) as A.
  destruct (createTransaction t w) as [[[err|]|] w']; try contradiction.
  split; [reflexivity | exact A].
Qed.

Lemma createTransaction_commits_witness :
  fst (createTransaction payout (mkWorld empty_ledger [None; None; None] 0))
  = Val None /\
  store (snd (createTransaction payout (mkWorld empty_ledger [None; None; None] 0)))
  = posted empty_ledger payout 0.
Proof.
  apply (createTransaction_commits payout (mkWorld empty_ledger [None; None; None] 0)).
  - repeat constructor.
  - reflexivity.
Defined.

(** X3: when Begin fails, or the Prepare or the Exec of the header insert
    fails, [createTransaction] returns an error: for Begin it wraps the
    cause, for Prepare and Exec it carries the cause and the result of
    [tx.Rollback]; the ledger is not touched. *)
Theorem createTransaction_header_failures (t : transaction) (e : error)
    (rb : option error) (rest : list (option error)) (db : database) (c : time) :
  validate t = None ->
  createTransaction t (mkWorld db (Some e :: rest) c)
  = (Val (Some (Errorf "createTransaction: tx.Begin: %v" [VErr (Some e)])),
     mkWorld db rest c) /\
  createTransaction t (mkWorld db (None :: Some e :: rb :: rest) c)
  = (Val (Some (Errorf "createTransaction: prepare: error=%v rollback=%v"
                       [VErr (Some e); VErr rb])),
     mkWorld db rest c) /\
  createTransaction t (mkWorld db (None :: None :: Some e :: rb :: rest) c)
  = (Val (Some (Errorf "createTransaction: insert: error=%v rollback=%v"
                       [VErr (Some e); VErr rb])),
     mkWorld db rest (c + 1)).
Proof.
  intros Hv. unfold createTransaction. rewrite Hv. repeat split.
Qed.

Lemma createTransaction_header_failures_witness :
  createTransaction payout (mkWorld ledger2 [None; Some boom; None] 3)
  = (Val (Some (Errorf "createTransaction: prepare: error=%v rollback=%v"
                       [VErr (Some boom); VErr None])),
     mkWorld ledger2 [] 3).
Proof.
  apply (proj1 (proj2 (createTransaction_header_failures
                         payout boom None [] ledger2 3 eq_refl))).
Defined.

Lemma insertLines_exec_fails (t : transaction) (e : error) (rb : option error)
    (rest : list (option error)) (st : database) (k : nat) :
  forall (lines : list transactionLine) (l : transactionLine) (tx : Tx) (c : time),
    nth_error lines k = Some l ->
    insertLines t lines tx
      (mkWorld st (repeat None (2 * k) ++ None :: Some e :: rb :: rest) c)
    = (Val (inr (Errorf
         "createTransaction: transaction=%q account=%q insert: error=%v rollback=%v"
         [VStr (ID t); VStr (AccountId l); VErr (Some e); VErr rb])),
       mkWorld st rest (c + Z.of_nat k + 1)).
Proof.
  induction k as [|k IH]; intros [|x lines] l tx c Hk; simpl in Hk;
    try discriminate.
  - injection Hk as Hk. subst x. simpl. unfold_calls.
    replace (c + 0 + 1) with (c + 1) by ring. reflexivity.
  - replace (2 * S k)%nat with (S (S (2 * k))) by lia.
    replace (c + Z.of_nat (S k) + 1) with (c + 1 + Z.of_nat k + 1) by lia.
    change (repeat None (S (S (2 * k))) ++ None :: Some e :: rb :: rest)
      with (None :: None :: (repeat None (2 * k) ++ None :: Some e :: rb :: rest)).
    remember (repeat None (2 * k) ++ None :: Some e :: rb :: rest) as s eqn:Es in *.
    simpl insertLines. unfold_calls. apply (IH lines l _ _ Hk).
Qed.

(** X4: when the Exec of the insert of line number [k] (from 0) fails after
    every earlier call succeeded, [createTransaction] returns an error that
    names the transaction and the account of that line and carries the cause
    and the result of [tx.Rollback]; the ledger is not touched. *)
Theorem createTransaction_line_exec_error (t : transaction) (l : transactionLine)
    (e : error) (rb : option error) (rest : list (option error))
    (db : database) (c : time) (k : nat) :
  validate t = None ->
  nth_error (Lines t) k = Some l ->
  createTransaction t
    (mkWorld db (repeat None (3 + 2 * k) ++ None :: Some e :: rb :: rest) c)
  = (Val (Some (Errorf
       "createTransaction: transaction=%q account=%q insert: error=%v rollback=%v"
       [VStr (ID t); VStr (AccountId l); VErr (Some e); VErr rb])),
     mkWorld db rest (c + Z.of_nat k + 2)).
Proof.
  intros Hv Hk. unfold createTransaction. rewrite Hv.
  replace (c + Z.of_nat k + 2) with (c + 1 + Z.of_nat k + 1) by lia.
  change (repeat None (3 + 2 * k) ++ None :: Some e :: rb :: rest)
    with (None :: None :: None ::
            (repeat None (2 * k) ++ None :: Some e :: rb :: rest)).
  remember (repeat None (2 * k) ++ None :: Some e :: rb :: rest) as s eqn:Es in *.
  unfold_calls. subst s.
  rewrite (insertLines_exec_fails t e rb rest db k (Lines t) l _ _ Hk).
  reflexivity.
Qed.

Lemma createTransaction_line_exec_error_witness :
  createTransaction payout
    (mkWorld empty_ledger
       [None; None; None; None; None; None; None; None;
        Some boom; Some (DriverError "rollback failed")] 0)
  = (Val (Some (Errorf
       "createTransaction: transaction=%q account=%q insert: error=%v rollback=%v"
       [VStr "T2"; VStr "C"; VErr (Some boom);
        VErr (Some (DriverError "rollback failed"))])),
     mkWorld empty_ledger [] 4).
Proof.
  apply (createTransaction_line_exec_error payout (mkLine "C" Transfer 100) boom
           (Some (DriverError "rollback failed")) [] empty_ledger 0 2);
    reflexivity.
Defined.

(** ** Balances across a posting *)

Lemma ledger_balance_app (tr : list transactions_row)
    (l1 l2 : list transaction_lines_row) (accountId : string) :
  ledger_balance (mkDatabase tr (l1 ++ l2)) accountId
  = ledger_balance (mkDatabase tr l1) accountId
    + ledger_balance (mkDatabase tr l2) accountId.
Proof.
  unfold ledger_balance. simpl. induction l1 as [|r l1 IH]; simpl; [reflexivity|].
  destruct ((r_account_id r =? accountId)%string && is_null (r_deleted_at r));
    rewrite IH; ring.
Qed.

Lemma ledger_balance_lineRows (tr : list transactions_row) (id : string)
    (lines : list transactionLine) (c : time) (accountId : string) :
  ledger_balance (mkDatabase tr (lineRows id lines c)) accountId
  = account_total accountId lines.
Proof.
  unfold ledger_balance. simpl. revert c.
  induction lines as [|l rest IH]; intros c; simpl; [reflexivity|].
  rewrite andb_true_r, IH. reflexivity.
Qed.

Lemma ledger_balance_posted (db : database) (t : transaction) (c : time)
    (accountId : string) :
  ledger_balance (posted db t c) accountId
  = ledger_balance db accountId + account_total accountId (Lines t).
Proof.
  unfold posted. rewrite ledger_balance_app, ledger_balance_lineRows.
  reflexivity.
Qed.

Lemma account_total_untouched (accountId : string) (lines : list transactionLine) :
  (forall l, In l lines -> AccountId l <> accountId) ->
  account_total accountId lines = 0.
Proof.
  induction lines as [|l rest IH]; intros H; simpl; [reflexivity|].
  destruct (AccountId l =? accountId)%string eqn:E.
  - apply String.eqb_eq in E. exfalso. apply (H l); [left; reflexivity | exact E].
  - apply IH. intros x Hx. apply H. right. exact Hx.
Qed.

(** X5: under every outcome of the database calls, a posting that returns nil
    moves the balance of each account by the sum of the amounts the
    transaction posts to it, and leaves the balance of an account it has no
    line for as it was; a posting that does not return nil changes no
    balance. *)
Theorem createTransaction_balance (t : transaction) (w : world) (accountId : string) :
  (fst (createTransaction t w) = Val None ->
   ledger_balance (store (snd (createTransaction t w))) accountId
   = ledger_balance (store w) accountId + account_total accountId (Lines t)) /\
  (fst (createTransaction t w) = Val None ->
   (forall l, In l (Lines t) -> AccountId l <> accountId) ->
   ledger_balance (store (snd (createTransaction t w))) accountId
   = ledger_balance (store w) accountId) /\
  (fst (createTransaction t w) <> Val None ->
   ledger_balance (store (snd (createTransaction t w))) accountId
   = ledger_balance (store w) accountId).
Proof.
  destruct (createTransaction_store t w) as [S F].
  split; [|split].
  - intros H. rewrite (S H). apply ledger_balance_posted.
  - intros H N. rewrite (S H), ledger_balance_posted,
      (account_total_untouched _ _ N). ring.
  - intros H. rewrite (F H). reflexivity.
Qed.

Lemma createTransaction_balance_witness :
  ledger_balance (store (snd (createTransaction reused (mkWorld ledger1 [] 4)))) "D"
  = ledger_balance ledger1 "D" + account_total "D" (Lines reused) /\
  ledger_balance (store (snd (createTransaction reused (mkWorld ledger1 [] 4)))) "A"
  = ledger_balance ledger1 "A".
Proof.
  split.
  - apply (proj1 (createTransaction_balance reused (mkWorld ledger1 [] 4) "D")).
    reflexivity.
  - apply (proj1 (proj2 (createTransaction_balance reused (mkWorld ledger1 [] 4) "A"))).
    + reflexivity.
    + intros l [E|[E|[]]]; subst l; discriminate.
Defined.

Lemma ledger_total_app (tr : list transactions_row)
    (l1 l2 : list transaction_lines_row) :
  ledger_total (mkDatabase tr (l1 ++ l2))
  = ledger_total (mkDatabase tr l1) + ledger_total (mkDatabase tr l2).
Proof.
  unfold ledger_total. simpl. induction l1 as [|r l1 IH]; simpl; [reflexivity|].
  destruct (is_null (r_deleted_at r)); rewrite IH; ring.
Qed.

Lemma ledger_total_lineRows (tr : list transactions_row) (id : string)
    (lines : list transactionLine) (c : time) :
  ledger_total (mkDatabase tr (lineRows id lines c)) = total lines.
Proof.
  unfold ledger_total, total. simpl. revert c.
  induction lines as [|l rest IH]; intros c; simpl; [reflexivity|].
  rewrite IH. reflexivity.
Qed.

(** X6: money is neither created nor destroyed by a posting whose amounts add
    up within 64 bits: if [createTransaction] returns nil and the exact sum
    of the line amounts lies strictly between -2^64 and 2^64, the sum of all
    visible amounts of the ledger is the same before and after. *)
Theorem createTransaction_conserves_total (t : transaction) (w : world) :
  fst (createTransaction t w) = Val None ->
  - two64 < total (Lines t) < two64 ->
  ledger_total (store (snd (createTransaction t w))) = ledger_total (store w).
Proof.
  intros H R.
  assert (Z0 : total (Lines t) = 0).
  { apply (zero_mod_small _ R), validate_None_iff.
    exact (createTransaction_valid t w H). }
  rewrite (proj1 (createTransaction_store t w) H).
  unfold posted. rewrite ledger_total_app, ledger_total_lineRows, Z0.
  destruct (store w); simpl. unfold ledger_total. simpl. ring.
Qed.

Lemma createTransaction_conserves_total_witness :
  ledger_total (store (snd (createTransaction reused (mkWorld ledger1 [] 4))))
  = ledger_total ledger1.
Proof.
  apply (createTransaction_conserves_total reused (mkWorld ledger1 [] 4)).
  - reflexivity.
  - split; reflexivity.
Defined.

(** ** The verdicts of the funds check *)

Lemma firstLine_None (id : string) (lines : list transactionLine) :
  firstLine id lines = None <-> (forall l, In l lines -> AccountId l <> id).
Proof.
  unfold firstLine. induction lines as [|x rest IH]; simpl.
  - split; [intros _ l [] | reflexivity].
  - destruct (id =? AccountId x)%string eqn:E.
    + apply String.eqb_eq in E. split; [discriminate|].
      intros H. exfalso. apply (H x); [left; reflexivity | congruence].
    + apply String.eqb_neq in E. rewrite IH. split.
      * intros H l [Hl|Hl]; [subst l; congruence | apply H, Hl].
      * intros H l Hl. apply H. right. exact Hl.
Qed.

Lemma covered_dec (lines : list transactionLine) (a : Account) :
  covered lines a <->
  (Balance a >? 0) = false \/ scanLines a lines = Sufficient.
Proof.
  unfold covered. rewrite scanLines_firstLine, Z.gtb_ltb, Z.ltb_ge.
  split; intros [H|H]; try (left; exact H); right.
  - destruct H as (l & F & L). rewrite F.
    destruct (Balance a <? int64 (Amount l)) eqn:E; [|reflexivity].
    apply Z.ltb_lt in E. lia.
  - destruct (firstLine (Account_ID a) lines) as [l|]; [|discriminate].
    exists l. split; [reflexivity|].
    destruct (Balance a <? int64 (Amount l)) eqn:E; [discriminate|].
    apply Z.ltb_ge in E. exact E.
Qed.

Lemma checkAccounts_nil_iff (accounts : list Account) (lines : list transactionLine) :
  checkAccounts accounts lines = None <-> Forall (covered lines) accounts.
Proof.
  induction accounts as [|a rest IH]; simpl.
  - split; [constructor | reflexivity].
  - rewrite Forall_cons_iff, covered_dec, <- IH.
    destruct (Balance a >? 0).
    + destruct (scanLines a lines); split; try discriminate; try tauto;
        intros [[H|H] _]; discriminate.
    + tauto.
Qed.

(** The error of the outer loop is raised by the first account, in account
    order, that is not covered. *)
Lemma checkAccounts_first_failure (accounts : list Account)
    (lines : list transactionLine) (e : error) :
  checkAccounts accounts lines = Some e ->
  exists pre a post,
    accounts = pre ++ a :: post /\
    Forall (covered lines) pre /\
    Balance a > 0 /\
    ((firstLine (Account_ID a) lines = None /\ e = NoMatchingLine (Account_ID a)) \/
     (exists l, firstLine (Account_ID a) lines = Some l /\
                Balance a < int64 (Amount l) /\
                e = InsufficientFunds (Account_ID a))).
Proof.
  induction accounts as [|a rest IH]; simpl; [discriminate|].
  assert (R : covered lines a -> checkAccounts rest lines = Some e ->
              exists pre a0 post, a :: rest = pre ++ a0 :: post /\
                Forall (covered lines) pre /\ Balance a0 > 0 /\
                ((firstLine (Account_ID a0) lines = None /\
                  e = NoMatchingLine (Account_ID a0)) \/
                 (exists l, firstLine (Account_ID a0) lines = Some l /\
                            Balance a0 < int64 (Amount l) /\
                            e = InsufficientFunds (Account_ID a0)))).
  { intros C H. destruct (IH H) as (pre & b & post & E & F & P).
    exists (a :: pre), b, post. split; [rewrite E; reflexivity|].
    split; [constructor; assumption | exact P]. }
  destruct (Balance a >? 0) eqn:B.
  - assert (Bp : Balance a > 0)
      by (rewrite Z.gtb_ltb in B; apply Z.ltb_lt in B; lia).
    pose proof (covered_dec lines a) as CD. rewrite B in CD.
    rewrite scanLines_firstLine in *.
    destruct (firstLine (Account_ID a) lines) as [l|] eqn:F.
    + destruct (Balance a <? int64 (Amount l)) eqn:C.
      * intros H. injection H as H. exists [], a, rest.
        split; [reflexivity|]. split; [constructor|]. split; [exact Bp|].
        right. exists l. apply Z.ltb_lt in C. auto.
      * apply R, CD. right. reflexivity.
    + intros H. injection H as H. exists [], a, rest.
      split; [reflexivity|]. split; [constructor|]. split; [exact Bp|].
      left. auto.
  - apply R. apply covered_dec. left. exact B.
Qed.

Lemma checkBalance_input (accounts : list Account) (tx : transaction) :
  (len accounts <? 2) || (len (Lines tx) =? 0) = false <->
  (2 <= List.length accounts)%nat /\ Lines tx <> [].
Proof.
  unfold len. rewrite orb_false_iff, Z.ltb_ge, Z.eqb_neq.
  destruct (Lines tx); simpl; split; intros [H1 H2]; split;
    try lia; try discriminate; congruence.
Qed.

(** X7: [checkBalance] returns nil exactly when it is given at least two
    accounts and a transaction with a line, and every account with a
    positive balance has a line in the transaction whose first one, in line
    order, carries an amount not above the balance. *)
Theorem checkBalance_nil_iff (accounts : list Account) (tx : transaction) :
  checkBalance accounts tx = None <->
  (2 <= List.length accounts)%nat /\ Lines tx <> [] /\
  Forall (covered (Lines tx)) accounts.
Proof.
  unfold checkBalance. rewrite <- checkAccounts_nil_iff.
  pose proof (checkBalance_input accounts tx) as I.
  destruct ((len accounts <? 2) || (len (Lines tx) =? 0)).
  - split; [discriminate|]. intros (H1 & H2 & _).
    assert (F : true = false) by (apply I; tauto). discriminate.
  - destruct I as [I _]. specialize (I eq_refl). tauto.
Qed.

Lemma checkBalance_nil_iff_witness :
  checkBalance funded repeated_credit = None.
Proof.
  apply (proj2 (checkBalance_nil_iff funded repeated_credit)).
  split; [simpl; lia|]. split; [discriminate|].
  constructor; [|constructor; [|constructor]].
  - right. exists (mkLine "A" ACHCredit 50). split; [reflexivity|].
    vm_compute. discriminate.
  - left. simpl. lia.
Defined.

(** X8: the error of [checkBalance].  It is the invalid-input error exactly
    when fewer than two accounts or no line is given.  Otherwise it comes
    from the first account, in account order, that has a positive balance
    and is not covered: every account before it passes, and the error names
    it, as without any line in the transaction or as short of funds because
    the amount of its first line is above its balance. *)
Theorem checkBalance_error (accounts : list Account) (tx : transaction) :
  (checkBalance accounts tx = Some (InvalidCheckInput accounts tx) <->
   (List.length accounts < 2)%nat \/ Lines tx = []) /\
  (forall e, checkBalance accounts tx = Some e ->
             e <> InvalidCheckInput accounts tx ->
     exists pre a post,
       accounts = pre ++ a :: post /\
       Forall (covered (Lines tx)) pre /\
       Balance a > 0 /\
       (((forall l, In l (Lines tx) -> AccountId l <> Account_ID a) /\
         e = NoMatchingLine (Account_ID a)) \/
        (exists l, firstLine (Account_ID a) (Lines tx) = Some l /\
                   Balance a < int64 (Amount l) /\
                   e = InsufficientFunds (Account_ID a)))).
Proof.
  unfold checkBalance.
  pose proof (checkBalance_input accounts tx) as I.
  destruct ((len accounts <? 2) || (len (Lines tx) =? 0)); split.
  - split; [|reflexivity]. intros _.
    destruct (Lines tx) as [|l rest] eqn:L; [right; reflexivity|]. left.
    destruct (le_lt_dec 2 (List.length accounts)) as [G|G]; [|exact G].
    assert (F : true = false) by (apply I; split; [exact G | discriminate]).
    discriminate.
  - intros e H N. injection H as H. congruence.
  - destruct I as [I _]. destruct (I eq_refl) as [I1 I2]. split.
    + intros H. apply checkAccounts_first_failure in H.
      destruct H as (pre & a & post & _ & _ & _ & [[_ E]|(l & _ & _ & E)]);
        discriminate.
    + intros [H|H]; [lia | contradiction].
  - intros e H _. apply checkAccounts_first_failure in H.
    destruct H as (pre & a & post & E & F & B & [[N Ee]|S]).
    + exists pre, a, post. repeat split; try assumption.
      left. split; [apply firstLine_None, N | exact Ee].
    + exists pre, a, post. repeat split; try assumption. right. exact S.
Qed.

Lemma checkBalance_error_witness :
  checkBalance [mkAccount "A" 100] overdraft
  = Some (InvalidCheckInput [mkAccount "A" 100] overdraft) /\
  exists pre a post,
    [mkAccount "B" 0; mkAccount "Z" 5] = pre ++ a :: post /\
    Forall (covered (Lines overdraft)) pre /\
    Balance a > 0 /\
    (((forall l, In l (Lines overdraft) -> AccountId l <> Account_ID a) /\
      NoMatchingLine "Z" = NoMatchingLine (Account_ID a)) \/
     (exists l, firstLine (Account_ID a) (Lines overdraft) = Some l /\
                Balance a < int64 (Amount l) /\
                NoMatchingLine "Z" = InsufficientFunds (Account_ID a))).
Proof.
  split.
  - apply (proj2 (proj1 (checkBalance_error [mkAccount "A" 100] overdraft))).
    left. simpl. lia.
  - apply (proj2 (checkBalance_error [mkAccount "B" 0; mkAccount "Z" 5] overdraft)).
    + reflexivity.
    + discriminate.
Defined.

(** ** The validator and the order of lines *)

Lemma total_permutation (l1 l2 : list transactionLine) :
  Permutation l1 l2 -> total l1 = total l2.
Proof.
  unfold total. induction 1; simpl; lia.
Qed.

(** X9: [validate] does not depend on the order of the lines: two
    transactions with the same ID whose lines are the same up to order get
    the same result, error included. *)
Theorem validate_permutation (t1 t2 : transaction) :
  ID t1 = ID t2 ->
  Permutation (Lines t1) (Lines t2) ->
  validate t1 = validate t2.
Proof.
  intros Hid P. unfold validate, len.
  rewrite !sumLoop_total, (total_permutation _ _ P), Hid,
    (Permutation_length P).
  reflexivity.
Qed.

Lemma validate_permutation_witness :
  validate unbalanced
  = validate (mkTransaction "T3" 1
                [mkLine "B" Transfer 200; mkLine "A" Transfer (-300)]).
Proof.
  apply (validate_permutation unbalanced
           (mkTransaction "T3" 1
              [mkLine "B" Transfer 200; mkLine "A" Transfer (-300)])).
  - reflexivity.
  - apply perm_swap.
Defined.

(** ** Reading never writes *)

Lemma scanLineRows_store (transactionId : string) (rows : list transaction_lines_row) :
  forall (acc : list transactionLine) (w : world),
    store (snd (scanLineRows transactionId rows acc w)) = store w.
Proof.
  induction rows as [|r rest IH]; intros acc [st s c]; simpl; [reflexivity|].
  crunch; try reflexivity; rewrite IH; reflexivity.
Qed.

Lemma getTransaction_store (tx : Tx) (transactionId : string) (w : world) :
  store (snd (getTransaction tx transactionId w)) = store w.
Proof.
  destruct w as [st s c].
  unfold getTransaction, QueryRow_timestamp, Query_lines.
  destruct (find _ (transactions tx)) as [h|];
    crunch; try reflexivity;
    match goal with
    | |- context [scanLineRows ?id ?rows ?acc ?w'] =>
        pose proof (scanLineRows_store id rows acc w') as H;
        destruct (scanLineRows id rows acc w') as [[[ls|err]|] [st4 s4 c4]]
    end; simpl in *; subst; crunch; reflexivity.
Qed.

Lemma scanIds_store (tx : Tx) (rows : list string) :
  forall (acc : list string) (w : world),
    store (snd (scanIds tx rows acc w)) = store w.
Proof.
  induction rows as [|r rest IH]; intros acc [st s c]; simpl; [reflexivity|].
  crunch; try reflexivity; rewrite IH; reflexivity.
Qed.

Lemma loadTransactions_store (tx : Tx) (ids : list string) :
  forall (acc : list transaction) (w : world),
    store (snd (loadTransactions tx ids acc w)) = store w.
Proof.
  induction ids as [|id rest IH]; intros acc w; simpl; [reflexivity|].
  unfold bind at 1.
  pose proof (getTransaction_store tx id w) as H.
  destruct (getTransaction tx id w) as [[[[t|] [err|]]|] [st2 s2 c2]];
    simpl in *; subst; crunch; try reflexivity; rewrite IH; reflexivity.
Qed.

Lemma getAccountTransactions_store (accountId : string) (w : world) :
  store (snd (getAccountTransactions accountId w)) = store w.
Proof.
  destruct w as [st s c].
  unfold getAccountTransactions, Query_transaction_ids.
  crunch; try reflexivity;
  match goal with
  | |- context [scanIds ?tx ?rows ?acc ?w'] =>
      pose proof (scanIds_store tx rows acc w') as H;
      destruct (scanIds tx rows acc w') as [[[ids|err]|] [st4 s4 c4]]
  end; simpl in *; subst; crunch; try reflexivity;
  match goal with
  | |- context [loadTransactions ?tx ?ids ?acc ?w'] =>
      pose proof (loadTransactions_store tx ids acc w') as H;
      destruct (loadTransactions tx ids acc w') as [[[ts|err]|] [st5 s5 c5]]
  end; simpl in *; subst; crunch; reflexivity.
Qed.

Lemma getAccountBalance_store (tx : Tx) (accountId : string) (w : world) :
  store (snd (getAccountBalance tx accountId w)) = store w.
Proof.
  destruct w as [st s c]. unfold getAccountBalance, QueryRow_balance.
  destruct (sqlite_sum 0 _); crunch; reflexivity.
Qed.

(** X10: the three reading functions never change the committed ledger,
    whatever the outcomes of the database calls: [getAccountTransactions]
    (which opens and commits a transaction of its own), [getTransaction] and
    [getAccountBalance]. *)
Theorem reads_keep_ledger (tx : Tx) (id : string) (w : world) :
  store (snd (getAccountTransactions id w)) = store w /\
  store (snd (getTransaction tx id w)) = store w /\
  store (snd (getAccountBalance tx id w)) = store w.
Proof.
  split; [apply getAccountTransactions_store|].
  split; [apply getTransaction_store | apply getAccountBalance_store].
Qed.

(** ** Reading when every database call succeeds *)

Lemma getTransaction_run (tx : Tx) (transactionId : string) (w : world) :
  ok_script (script w) ->
  exists w',
    getTransaction tx transactionId w
    = (Val (match stored tx transactionId with
            | Some t => (Some t, None)
            | None => (None, Some NotFound)
            end), w')
    /\ ok_script (script w') /\ store w' = store w.
Proof.
  destruct w as [st s c]. intros H. simpl in H.
  unfold getTransaction, QueryRow_timestamp, Query_lines, stored, visible_header,
    NotFound.
  destruct (find _ (transactions tx)) as [h|];
    crunch_ok H;
    try (eexists; split; [reflexivity|]; split;
         [assumption || apply ok_script_nil | reflexivity]);
    match goal with
    | |- context [scanLineRows ?id ?rows ?acc ?w'] =>
        let K := fresh "K" in
        assert (K : ok_script (script w'))
          by (simpl; assumption || apply ok_script_nil);
        destruct (scanLineRows_ok id rows acc w' K)
          as ([st4 s4 c4] & E4 & K4 & S4);
        rewrite E4; simpl in K4, S4; subst st4
    end; crunch_ok K4;
    (eexists; split; [reflexivity|]; split;
     [assumption || apply ok_script_nil | reflexivity]).
Qed.

Lemma scanIds_run (tx : Tx) (rows : list string) :
  forall (acc : list string) (w : world),
    ok_script (script w) ->
    exists w',
      scanIds tx rows acc w = (Val (inl (acc ++ rows)), w')
      /\ ok_script (script w') /\ store w' = store w.
Proof.
  induction rows as [|r rest IH]; intros acc [st s c] H; simpl in *.
  - rewrite app_nil_r. eexists. split; [reflexivity|]. split; [exact H|reflexivity].
  - crunch_ok H.
    + destruct (IH (acc ++ [r]) (mkWorld st [] c) ok_script_nil) as (w' & E & R).
      rewrite E, <- app_assoc. exists w'. split; [reflexivity | exact R].
    + destruct (IH (acc ++ [r]) (mkWorld st s c) H) as (w' & E & R).
      rewrite E, <- app_assoc. exists w'. split; [reflexivity | exact R].
Qed.

Lemma loadTransactions_run (tx : Tx) (ids : list string) :
  forall (acc : list transaction) (w : world),
    ok_script (script w) ->
    exists w',
      loadTransactions tx ids acc w
      = (Val (match load_all tx ids with
              | Some ts => inl (acc ++ ts)
              | None => inr HistoryBroken
              end), w')
      /\ ok_script (script w') /\ store w' = store w.
Proof.
  induction ids as [|id rest IH]; intros acc w H; simpl.
  - rewrite app_nil_r. exists w. split; [reflexivity|]. split; [exact H|reflexivity].
  - unfold bind at 1.
    destruct (getTransaction_run tx id w H) as ([st2 s2 c2] & E & K & S).
    rewrite E. simpl in K, S. destruct (stored tx id) as [t|].
    + destruct (IH (acc ++ [t]) (mkWorld st2 s2 c2) K) as (w' & E' & K' & S').
      rewrite E'. exists w'. simpl in S'. split; [|split; [exact K' | congruence]].
      destruct (load_all tx rest); [rewrite <- app_assoc|]; reflexivity.
    + crunch_ok K;
        (eexists; split; [reflexivity|]; split;
         [assumption || apply ok_script_nil | simpl; congruence]).
Qed.

(** With no failing call, [getAccountTransactions] loads the transaction
    stored under each ID of the account, or fails as a whole. *)
Lemma getAccountTransactions_run (accountId : string) (w : world) :
  ok_script (script w) ->
  fst (getAccountTransactions accountId w)
  = Val (match load_all (store w) (account_transaction_ids (store w) accountId) with
         | Some ts => (ts, None)
         | None => ([], Some HistoryBroken)
         end).
Proof.
  destruct w as [st s c]. intros H. simpl in H.
  unfold getAccountTransactions, Query_transaction_ids, account_transaction_ids.
  simpl store.
  crunch_ok H;
  match goal with
  | |- context [scanIds ?tx ?rows ?acc ?w'] =>
      let K := fresh "K" in
      assert (K : ok_script (script w'))
        by (simpl; assumption || apply ok_script_nil);
      destruct (scanIds_run tx rows acc w' K) as ([st4 s4 c4] & E4 & K4 & S4);
      rewrite E4; simpl in K4, S4; subst st4
  end; crunch_ok K4;
  match goal with
  | |- context [loadTransactions ?tx ?ids ?acc ?w'] =>
      let K := fresh "K" in
      assert (K : ok_script (script w'))
        by (simpl; assumption || apply ok_script_nil);
      destruct (loadTransactions_run tx ids acc w' K)
        as ([st5 s5 c5] & E5 & K5 & S5);
      rewrite E5; simpl in K5, S5; subst st5
  end;
  destruct (load_all st _); crunch_ok K5; reflexivity.
Qed.

Lemma In_visible_rows (db : database) (id : string) (r : transaction_lines_row) :
  In r (visible_rows db id) <->
  In r (transaction_lines db) /\ r_transaction_id r = id /\ r_deleted_at r = None.
Proof.
  unfold visible_rows. rewrite filter_In, andb_true_iff, String.eqb_eq.
  destruct (r_deleted_at r); simpl; intuition congruence.
Qed.

(** X11: lookup by an ID that does not read as a number, when every database
    call succeeds.  If no header of the ID without deletion time exists,
    [getTransaction] returns a nil transaction and an error wrapping
    [sql.ErrNoRows].  Otherwise it returns, with a nil error, the ID, the
    timestamp of the first such header and the lines of exactly the rows of
    that ID without deletion time, in table order: no soft-deleted line and
    no line of another transaction. *)
Theorem getTransaction_lookup (tx : Tx) (id : string) (w : world) :
  ok_script (script w) ->
  textual id = true ->
  (visible_header tx id = None ->
   fst (getTransaction tx id w) = Val (None, Some NotFound)) /\
  (forall h, visible_header tx id = Some h ->
     exists t,
       fst (getTransaction tx id w) = Val (Some t, None) /\
       ID t = id /\ Timestamp t = h_timestamp h /\
       Lines t = map lineOf (visible_rows tx id) /\
       (forall l, In l (Lines t) <->
                  exists r, In r (transaction_lines tx) /\
                            r_transaction_id r = id /\
                            r_deleted_at r = None /\ lineOf r = l)).
Proof.
  intros H _. destruct (getTransaction_run tx id w H) as (w' & E & _).
  rewrite E. unfold stored. simpl. split.
  - intros N. rewrite N. reflexivity.
  - intros h Hh. rewrite Hh. eexists. split; [reflexivity|]. simpl.
    repeat split; try reflexivity.
    + intros L. apply in_map_iff in L. destruct L as (r & Hl & Hr).
      apply In_visible_rows in Hr. exists r. tauto.
    + intros (r & Hr & Hi & Hd & Hl). apply in_map_iff. exists r.
      split; [exact Hl|]. apply In_visible_rows. tauto.
Qed.

Lemma getTransaction_lookup_witness :
  fst (getTransaction ledger2 "T12" (mkWorld ledger2 [None] 9))
  = Val (None, Some NotFound) /\
  exists t,
    fst (getTransaction ledger2 "T11" (mkWorld ledger2 [None] 9)) = Val (Some t, None) /\
    ID t = "T11" /\ Timestamp t = 1 /\
    Lines t = map lineOf (visible_rows ledger2 "T11") /\
    (forall l, In l (Lines t) <->
               exists r, In r (transaction_lines ledger2) /\
                         r_transaction_id r = "T11" /\
                         r_deleted_at r = None /\ lineOf r = l).
Proof.
  split.
  - apply (proj1 (getTransaction_lookup ledger2 "T12" (mkWorld ledger2 [None] 9)
                    ltac:(repeat constructor) eq_refl)).
    reflexivity.
  - apply (proj2 (getTransaction_lookup ledger2 "T11" (mkWorld ledger2 [None] 9)
                    ltac:(repeat constructor) eq_refl) (mkHeader "T11" 1 1 None)).
    reflexivity.
Defined.

(** *** The history of an account *)

Lemma first_of_each_ids (rows : list transaction_lines_row) (id : string) :
  In id (map r_transaction_id (first_of_each rows)) <->
  In id (map r_transaction_id rows).
Proof.
  induction rows as [|r rest IH]; simpl; [tauto|].
  rewrite <- IH, !in_map_iff. split.
  - intros [E|(x & Hx & Hf)]; [left; exact E|].
    apply filter_In in Hf. right. exists x. tauto.
  - intros [E|(x & Hx & Hf)]; [left; exact E|].
    destruct (string_dec (r_transaction_id r) id) as [D|D]; [left; exact D|].
    right. exists x. split; [exact Hx|]. apply filter_In. split; [exact Hf|].
    apply negb_true_iff, String.eqb_neq. congruence.
Qed.

Lemma NoDup_map_filter {A B : Type} (g : A -> B) (f : A -> bool) (l : list A) :
  NoDup (map g l) -> NoDup (map g (filter f l)).
Proof.
  induction l as [|x l IH]; simpl; [trivial|].
  intros N. inversion N as [|y ys Hy Hn]; subst.
  destruct (f x); simpl; [|apply IH, Hn].
  constructor; [|apply IH, Hn].
  intros I. apply Hy. apply in_map_iff in I. destruct I as (z & Ez & Hz).
  apply filter_In in Hz. apply in_map_iff. exists z. tauto.
Qed.

Lemma NoDup_first_of_each (rows : list transaction_lines_row) :
  NoDup (map r_transaction_id (first_of_each rows)).
Proof.
  induction rows as [|r rest IH]; simpl; constructor.
  - intros I. apply in_map_iff in I. destruct I as (x & Ex & Hx).
    apply filter_In in Hx. destruct Hx as [_ F].
    apply negb_true_iff, String.eqb_neq in F. contradiction.
  - apply NoDup_map_filter, IH.
Qed.

Lemma Permutation_insert_desc (r : transaction_lines_row)
    (l : list transaction_lines_row) :
  Permutation (insert_desc r l) (r :: l).
Proof.
  induction l as [|x l IH]; simpl; [apply Permutation_refl|].
  destruct (r_created_at x <=? r_created_at r); [apply Permutation_refl|].
  apply perm_trans with (x :: r :: l); [apply perm_skip, IH | apply perm_swap].
Qed.

Lemma Permutation_order_by (l : list transaction_lines_row) :
  Permutation (order_by_created_at_desc l) l.
Proof.
  unfold order_by_created_at_desc. induction l as [|x l IH]; simpl;
    [apply Permutation_refl|].
  apply perm_trans with (x :: fold_right insert_desc [] l);
    [apply Permutation_insert_desc | apply perm_skip, IH].
Qed.

Lemma NoDup_account_transaction_ids (db : database) (accountId : string) :
  NoDup (account_transaction_ids db accountId).
Proof.
  unfold account_transaction_ids.
  apply (Permutation_NoDup
           (l := map r_transaction_id
                   (first_of_each
                      (filter (fun r => (r_account_id r =? accountId)%string)
                              (transaction_lines db))))).
  - apply Permutation_map, Permutation_sym, Permutation_order_by.
  - apply NoDup_first_of_each.
Qed.

Lemma In_insert_desc (r x : transaction_lines_row) (l : list transaction_lines_row) :
  In x (insert_desc r l) <-> x = r \/ In x l.
Proof.
  induction l as [|y l IH]; simpl.
  - intuition congruence.
  - destruct (r_created_at y <=? r_created_at r); simpl.
    + intuition congruence.
    + rewrite IH. intuition congruence.
Qed.

Lemma In_order_by (x : transaction_lines_row) (l : list transaction_lines_row) :
  In x (order_by_created_at_desc l) <-> In x l.
Proof.
  unfold order_by_created_at_desc. induction l as [|y l IH]; simpl; [tauto|].
  rewrite In_insert_desc, IH. intuition congruence.
Qed.

Lemma In_account_transaction_ids (db : database) (accountId id : string) :
  In id (account_transaction_ids db accountId) <->
  exists r, In r (transaction_lines db) /\
            r_account_id r = accountId /\ r_transaction_id r = id.
Proof.
  unfold account_transaction_ids.
  assert (P : In id (map r_transaction_id
                       (order_by_created_at_desc
                          (first_of_each
                             (filter (fun r => (r_account_id r =? accountId)%string)
                                     (transaction_lines db))))) <->
              In id (map r_transaction_id
                       (filter (fun r => (r_account_id r =? accountId)%string)
                               (transaction_lines db)))).
  { etransitivity; [|apply first_of_each_ids].
    rewrite !in_map_iff. split; intros (r & E & Hr); exists r;
      (split; [exact E|]); apply In_order_by; exact Hr. }
  rewrite P, in_map_iff. split.
  - intros (r & Hid & Hr). apply filter_In in Hr.
    destruct Hr as [Hr Ha]. apply String.eqb_eq in Ha. exists r. tauto.
  - intros (r & Hr & Ha & Hid). exists r. split; [exact Hid|].
    apply filter_In. split; [exact Hr|]. apply String.eqb_eq, Ha.
Qed.

Lemma stored_ID (db : database) (id : string) (t : transaction) :
  stored db id = Some t -> ID t = id.
Proof.
  unfold stored. destruct (visible_header db id); [|discriminate].
  intros E. injection E as E. subst t. reflexivity.
Qed.

Lemma stored_None (db : database) (id : string) :
  stored db id = None <-> visible_header db id = None.
Proof.
  unfold stored. destruct (visible_header db id); split; congruence.
Qed.

Lemma load_all_Some (db : database) (ids : list string) (ts : list transaction) :
  load_all db ids = Some ts ->
  map ID ts = ids /\ Forall (fun t => stored db (ID t) = Some t) ts.
Proof.
  revert ts. induction ids as [|id rest IH]; intros ts; simpl.
  - intros E. injection E as E. subst ts. split; [reflexivity | constructor].
  - destruct (stored db id) as [t|] eqn:S; [|discriminate].
    destruct (load_all db rest) as [ts'|]; [|discriminate].
    intros E. injection E as E. subst ts. destruct (IH ts' eq_refl) as [M F].
    pose proof (stored_ID db id t S) as I. simpl. split.
    + rewrite M, I. reflexivity.
    + constructor; [rewrite I; exact S | exact F].
Qed.

Lemma load_all_None (db : database) (ids : list string) :
  load_all db ids = None <-> exists id, In id ids /\ stored db id = None.
Proof.
  induction ids as [|id rest IH]; simpl.
  - split; [discriminate | intros (x & [] & _)].
  - destruct (stored db id) as [t|] eqn:S.
    + destruct (load_all db rest) as [ts|].
      * split; [discriminate|]. intros (x & [E|Hx] & N).
        -- subst x. congruence.
        -- assert (F : Some ts = None) by (apply IH; exists x; tauto).
           discriminate.
      * split; [|reflexivity]. intros _. destruct (proj1 IH eq_refl) as (x & Hx & N).
        exists x. tauto.
    + split; [|reflexivity]. intros _. exists id. tauto.
Qed.

(** X12: the history of an account when every database call succeeds, the
    transaction IDs on its lines do not read as numbers, and the transaction
    of each of its lines, deleted or not, has a header without deletion
    time.  [getAccountTransactions] returns, with a nil error, one
    transaction per transaction ID found on a line of the account, no ID
    twice, each as the ledger stores it (first visible header, visible
    lines).  The order of the transactions is not stated.  For an account
    without any line the result is the empty list. *)
Theorem getAccountTransactions_history (accountId : string) (w : world) :
  ok_script (script w) ->
  (forall r, In r (transaction_lines (store w)) ->
             r_account_id r = accountId ->
             textual (r_transaction_id r) = true) ->
  (forall r, In r (transaction_lines (store w)) ->
             r_account_id r = accountId ->
             visible_header (store w) (r_transaction_id r) <> None) ->
  exists ts,
    fst (getAccountTransactions accountId w) = Val (ts, None) /\
    NoDup (map ID ts) /\
    (forall id, In id (map ID ts) <->
                exists r, In r (transaction_lines (store w)) /\
                          r_account_id r = accountId /\
                          r_transaction_id r = id) /\
    Forall (fun t => stored (store w) (ID t) = Some t) ts /\
    ((forall r, In r (transaction_lines (store w)) ->
                r_account_id r <> accountId) -> ts = []).
Proof.
  intros H _ V. rewrite (getAccountTransactions_run accountId w H).
  destruct (load_all (store w) (account_transaction_ids (store w) accountId))
    as [ts|] eqn:L.
  - destruct (load_all_Some _ _ _ L) as [M F].
    exists ts. split; [reflexivity|]. rewrite M.
    split; [apply NoDup_account_transaction_ids|].
    split; [intros id; apply In_account_transaction_ids|].
    split; [exact F|].
    intros N. destruct ts as [|t ts']; [reflexivity|]. exfalso.
    assert (I : In (ID t) (account_transaction_ids (store w) accountId))
      by (rewrite <- M; left; reflexivity).
    apply In_account_transaction_ids in I. destruct I as (r & Hr & Ha & _).
    exact (N r Hr Ha).
  - exfalso. apply load_all_None in L. destruct L as (id & I & N).
    apply In_account_transaction_ids in I. destruct I as (r & Hr & Ha & Hid).
    apply (V r Hr Ha). rewrite Hid. apply stored_None, N.
Qed.

Lemma getAccountTransactions_history_witness :
  exists ts,
    fst (getAccountTransactions "B" (mkWorld ledger1 [None] 9)) = Val (ts, None) /\
    NoDup (map ID ts) /\
    (forall id, In id (map ID ts) <->
                exists r, In r (transaction_lines ledger1) /\
                          r_account_id r = "B" /\ r_transaction_id r = id) /\
    Forall (fun t => stored ledger1 (ID t) = Some t) ts /\
    ((forall r, In r (transaction_lines ledger1) -> r_account_id r <> "B") ->
     ts = []).
Proof.
  apply (getAccountTransactions_history "B" (mkWorld ledger1 [None] 9)).
  - repeat constructor.
  - intros r [E|[E|[E|[]]]] _; subst r; reflexivity.
  - intros r [E|[E|[E|[]]]] _; subst r; discriminate.
Defined.

(** X13: one unreadable transaction hides the whole history.  When every
    database call succeeds and some line of the account, deleted or not,
    carries a transaction ID that does not read as a number and has no
    header without deletion time, [getAccountTransactions] returns no
    transaction at all and an error wrapping [sql.ErrNoRows]. *)
Theorem getAccountTransactions_hidden_header (accountId : string) (w : world)
    (r : transaction_lines_row) :
  ok_script (script w) ->
  In r (transaction_lines (store w)) ->
  r_account_id r = accountId ->
  textual (r_transaction_id r) = true ->
  visible_header (store w) (r_transaction_id r) = None ->
  fst (getAccountTransactions accountId w) = Val ([], Some HistoryBroken).
Proof.
  intros H Hr Ha _ N. rewrite (getAccountTransactions_run accountId w H).
  replace (load_all (store w) (account_transaction_ids (store w) accountId))
    with (@None (list transaction)); [reflexivity|].
  symmetry. apply load_all_None. exists (r_transaction_id r). split.
  - apply In_account_transaction_ids. exists r. tauto.
  - apply stored_None, N.
Qed.

Lemma getAccountTransactions_hidden_header_witness :
  fst (getAccountTransactions "A" (mkWorld ledger3 [] 9))
  = Val ([], Some HistoryBroken).
Proof.
  apply (getAccountTransactions_hidden_header "A" (mkWorld ledger3 [] 9)
           (mkRow "T13" "A" Transfer (-10) 2 None)).
  - apply ok_script_nil.
  - left. reflexivity.
  - reflexivity.
  - reflexivity.
  - reflexivity.
Defined.

(** *** Posting, then reading the history *)

Lemma find_app_Some {A : Type} (f : A -> bool) (l l' : list A) (x : A) :
  find f l = Some x -> find f (l ++ l') = Some x.
Proof.
  induction l as [|a l IH]; simpl; [discriminate|].
  destruct (f a); [trivial | exact IH].
Qed.

Lemma In_lineRows (id : string) (lines : list transactionLine) :
  forall (c : time) (r : transaction_lines_row),
    In r (lineRows id lines c) ->
    r_transaction_id r = id /\ exists l, In l lines /\ r_account_id r = AccountId l.
Proof.
  induction lines as [|l rest IH]; intros c r; simpl; [intros []|].
  intros [E|H].
  - subst r. split; [reflexivity|]. exists l. split; [left|]; reflexivity.
  - destruct (IH _ _ H) as (Hid & x & Hx & Ha). split; [exact Hid|].
    exists x. split; [right; exact Hx | exact Ha].
Qed.

Lemma lineRows_In (id : string) (lines : list transactionLine) (l : transactionLine) :
  forall c : time,
    In l lines ->
    exists r, In r (lineRows id lines c) /\
              r_transaction_id r = id /\ r_account_id r = AccountId l.
Proof.
  induction lines as [|x rest IH]; intros c; simpl; [intros []|].
  intros [E|H].
  - subst x. exists (lineRow id l c). split; [left; reflexivity|].
    split; reflexivity.
  - destruct (IH (c + 1) H) as (r & Hr & P). exists r. split; [right; exact Hr | exact P].
Qed.

Lemma visible_header_posted_old (db : database) (t : transaction) (c : time)
    (id : string) :
  visible_header db id <> None -> visible_header (posted db t c) id <> None.
Proof.
  unfold visible_header, posted. simpl.
  destruct (find _ (transactions db)) as [h|] eqn:F; [|contradiction].
  intros _. rewrite (find_app_Some _ _ _ _ F). discriminate.
Qed.

Lemma visible_header_posted_new (db : database) (t : transaction) (c : time) :
  visible_header (posted db t c) (ID t) <> None.
Proof.
  unfold visible_header, posted. simpl.
  destruct (find_app_last
              (fun h => (h_transaction_id h =? ID t)%string && is_null (h_deleted_at h))
              (transactions db)
              (mkHeader (ID t) (Timestamp t) c None)) as [h Hh].
  - simpl. rewrite String.eqb_refl. reflexivity.
  - rewrite Hh. discriminate.
Qed.

(** X14: a posted transaction shows up in the history of each account it has
    a line for.  Assume every database call succeeds, the transaction passes
    [validate], and each line the ledger already holds for the account
    belongs to a transaction with a header without deletion time.  Then
    [createTransaction] commits, and [getAccountTransactions] on the new
    ledger returns, with a nil error, a list that holds a transaction under
    the posted ID; if no visible line carried that ID before, its lines are
    the posted lines. *)
Theorem posted_transaction_in_history (t : transaction) (w : world)
    (accountId : string) :
  ok_script (script w) ->
  validate t = None ->
  (exists l, In l (Lines t) /\ AccountId l = accountId) ->
  (forall r, In r (transaction_lines (store w)) ->
             r_account_id r = accountId ->
             visible_header (store w) (r_transaction_id r) <> None) ->
  exists w' ts t',
    createTransaction t w = (Val None, w') /\
    fst (getAccountTransactions accountId w') = Val (ts, None) /\
    In t' ts /\ ID t' = ID t /\
    (unused (ID t) (store w) -> Lines t' = Lines t).
Proof.
  intros H Hv (l & Hl & Ha) V.
  pose proof (createTransaction_ok t w H Hv) as K.
  pose proof (createTransaction_atomic t w) as A.
  destruct (createTransaction t w) as [[[err|]|] w']; try contradiction.
  pose proof (getAccountTransactions_run accountId w' K) as G.
  simpl in A. rewrite A in G.
  set (db := posted (store w) t (clock w)) in *.
  destruct (load_all db (account_transaction_ids db accountId)) as [ts|] eqn:L.
  - destruct (load_all_Some _ _ _ L) as [M F].
    assert (I : In (ID t) (map ID ts)).
    { rewrite M. apply In_account_transaction_ids.
      destruct (lineRows_In (ID t) (Lines t) l (clock w + 1) Hl) as (r & Hr & Hi & Hra).
      exists r. split; [|split; [congruence | exact Hi]].
      unfold db, posted. simpl. apply in_or_app. right. exact Hr. }
    apply in_map_iff in I. destruct I as (t' & Hid & Ht').
    exists w', ts, t'. split; [reflexivity|]. split; [exact G|].
    split; [exact Ht'|]. split; [exact Hid|].
    intros U. rewrite Forall_forall in F. specialize (F t' Ht').
    rewrite Hid in F. unfold stored in F.
    destruct (visible_header db (ID t)); [|discriminate].
    injection F as F. rewrite <- F. simpl. unfold db.
    rewrite (visible_rows_posted _ _ _ U). apply lineOf_lineRows.
  - exfalso. apply load_all_None in L. destruct L as (id & I & N).
    apply In_account_transaction_ids in I. destruct I as (r & Hr & Hra & Hid).
    apply stored_None in N. unfold db, posted in Hr. simpl in Hr.
    apply in_app_or in Hr. destruct Hr as [Hr|Hr].
    + apply (visible_header_posted_old (store w) t (clock w) id); [|exact N].
      rewrite <- Hid. apply V; assumption.
    + apply In_lineRows in Hr. destruct Hr as [Hi _].
      apply (visible_header_posted_new (store w) t (clock w)).
      rewrite <- Hi, Hid. exact N.
Qed.

Lemma posted_transaction_in_history_witness :
  exists w' ts t',
    createTransaction reused quiet_world = (Val None, w') /\
    fst (getAccountTransactions "E" w') = Val (ts, None) /\
    In t' ts /\ ID t' = ID reused /\
    (unused (ID reused) (store quiet_world) -> Lines t' = Lines reused).
Proof.
  apply (posted_transaction_in_history reused quiet_world "E").
  - apply ok_script_nil.
  - reflexivity.
  - exists (mkLine "E" Transfer 5). split; [right; left; reflexivity | reflexivity].
  - intros r [].
Defined.

(** *** Reading twice *)

Lemma getAccountTransactions_run_world (accountId : string) (w : world) :
  ok_script (script w) ->
  exists w',
    getAccountTransactions accountId w
    = (Val (match load_all (store w) (account_transaction_ids (store w) accountId) with
            | Some ts => (ts, None)
            | None => ([], Some HistoryBroken)
            end), w')
    /\ ok_script (script w') /\ store w' = store w.
Proof.
  destruct w as [st s c]. intros H. simpl in H.
  unfold getAccountTransactions, Query_transaction_ids, account_transaction_ids.
  simpl store.
  crunch_ok H;
  match goal with
  | |- context [scanIds ?tx ?rows ?acc ?w'] =>
      let K := fresh "K" in
      assert (K : ok_script (script w'))
        by (simpl; assumption || apply ok_script_nil);
      destruct (scanIds_run tx rows acc w' K) as ([st4 s4 c4] & E4 & K4 & S4);
      rewrite E4; simpl in K4, S4; subst st4
  end; crunch_ok K4;
  match goal with
  | |- context [loadTransactions ?tx ?ids ?acc ?w'] =>
      let K := fresh "K" in
      assert (K : ok_script (script w'))
        by (simpl; assumption || apply ok_script_nil);
      destruct (loadTransactions_run tx ids acc w' K)
        as ([st5 s5 c5] & E5 & K5 & S5);
      rewrite E5; simpl in K5, S5; subst st5
  end;
  destruct (load_all st _); crunch_ok K5;
  (eexists; split; [reflexivity|]; split;
   [assumption || apply ok_script_nil | reflexivity]).
Qed.

(** X21: reading the history of an account twice in a row gives the same
    answer, transactions and error alike, when no database call fails: the
    first call leaves nothing behind that the second could see. *)
Theorem getAccountTransactions_twice (accountId : string) (w : world) :
  ok_script (script w) ->
  fst (getAccountTransactions accountId (snd (getAccountTransactions accountId w)))
  = fst (getAccountTransactions accountId w).
Proof.
  intros H.
  destruct (getAccountTransactions_run_world accountId w H) as (w1 & E1 & K1 & S1).
  rewrite E1. simpl.
  destruct (getAccountTransactions_run_world accountId w1 K1) as (w2 & E2 & _).
  rewrite E2, S1. reflexivity.
Qed.

Lemma getAccountTransactions_twice_witness :
  fst (getAccountTransactions "A"
         (snd (getAccountTransactions "A" (mkWorld ledger3 [None; None] 9))))
  = fst (getAccountTransactions "A" (mkWorld ledger3 [None; None] 9)).
Proof.
  apply (getAccountTransactions_twice "A" (mkWorld ledger3 [None; None] 9)).
  repeat constructor.
Defined.

(** ** The path of the database file *)

Lemma prefix_spec (p s : string) :
  String.prefix p s = true <-> exists post, s = (p ++ post)%string.
Proof.
  revert s. induction p as [|a p IH]; intros s; simpl.
  - split; [intros _; exists s; reflexivity | intros _; destruct s; reflexivity].
  - destruct s as [|b s].
    + split; [discriminate | intros [post E]; discriminate].
    + simpl. destruct (Ascii.ascii_dec a b) as [E|N].
      * subst b. rewrite IH. split; intros [post H]; exists post; congruence.
      * split; [discriminate | intros [post H]; congruence].
Qed.

Lemma Contains_nil (sub : string) :
  Contains "" sub = if String.prefix sub "" then true else false.
Proof. reflexivity. Qed.

Lemma Contains_cons (a : Ascii.ascii) (s sub : string) :
  Contains (String a s) sub
  = if String.prefix sub (String a s) then true else Contains s sub.
Proof. reflexivity. Qed.

Lemma Contains_spec (s sub : string) :
  Contains s sub = true <-> exists pre post, s = (pre ++ sub ++ post)%string.
Proof.
  induction s as [|a s IH]; [rewrite Contains_nil | rewrite Contains_cons].
  - destruct (String.prefix sub "") eqn:P.
    + split; [|reflexivity]. intros _. apply prefix_spec in P.
      destruct P as [post E]. exists "", post. exact E.
    + split; [discriminate|]. intros (pre & post & E).
      destruct pre; [|discriminate]. simpl in E.
      assert (T : String.prefix sub "" = true)
        by (apply prefix_spec; exists post; exact E).
      congruence.
  - destruct (String.prefix sub (String a s)) eqn:P.
    + split; [|reflexivity]. intros _. apply prefix_spec in P.
      destruct P as [post E]. exists "", post. exact E.
    + rewrite IH. split.
      * intros (pre & post & E). exists (String a pre), post. simpl. congruence.
      * intros (pre & post & E). destruct pre as [|b pre].
        -- simpl in E.
           assert (T : String.prefix sub (String a s) = true)
             by (apply prefix_spec; exists post; exact E).
           congruence.
        -- simpl in E. injection E as _ E. exists pre, post. exact E.
Qed.

(** X15: [getSqlitePath] never returns the empty path nor a path in which
    ".." occurs; it returns the value of SQLITE_DB_PATH when that value is
    not empty and ".." does not occur in it, and "accounts.db" otherwise. *)
Theorem getSqlitePath_contained (Getenv : string -> string) :
  getSqlitePath Getenv <> "" /\
  (forall pre post, getSqlitePath Getenv <> (pre ++ ".." ++ post)%string) /\
  (Getenv "SQLITE_DB_PATH" <> "" ->
   (forall pre post, Getenv "SQLITE_DB_PATH" <> (pre ++ ".." ++ post)%string) ->
   getSqlitePath Getenv = Getenv "SQLITE_DB_PATH") /\
  (Getenv "SQLITE_DB_PATH" = "" \/
   (exists pre post, Getenv "SQLITE_DB_PATH" = (pre ++ ".." ++ post)%string) ->
   getSqlitePath Getenv = "accounts.db").
Proof.
  unfold getSqlitePath. set (path := Getenv "SQLITE_DB_PATH").
  pose proof (Contains_spec path "..") as C.
  destruct (path =? "")%string eqn:E; simpl.
  - apply String.eqb_eq in E. repeat split; try discriminate.
    + intros pre post H.
      assert (T : Contains "accounts.db" ".." = true)
        by (apply Contains_spec; exists pre, post; exact H).
      discriminate.
    + intros N. contradiction.
  - apply String.eqb_neq in E. destruct (Contains path "..") eqn:K.
    + repeat split; try discriminate.
      * intros pre post H.
        assert (T : Contains "accounts.db" ".." = true)
          by (apply Contains_spec; exists pre, post; exact H).
        discriminate.
      * intros _ N. destruct (proj1 C eq_refl) as (pre & post & H).
        exfalso. exact (N pre post H).
    + repeat split; try assumption; try reflexivity.
      * intros pre post H.
        assert (T : true = false)
          by (rewrite <- K; symmetry; apply Contains_spec; exists pre, post; exact H).
        discriminate.
      * intros [H|H]; [contradiction|].
        assert (T : false = true) by (apply C; exact H). discriminate.
Qed.

Lemma getSqlitePath_contained_witness :
  getSqlitePath (fun _ => "/var/lib/accounts/ledger.db")
  = "/var/lib/accounts/ledger.db" /\
  getSqlitePath (fun _ => "data/../../etc/passwd") = "accounts.db".
Proof.
  split.
  - apply (proj1 (proj2 (proj2 (getSqlitePath_contained
                                  (fun _ => "/var/lib/accounts/ledger.db"))))).
    + discriminate.
    + intros pre post H.
      assert (T : Contains "/var/lib/accounts/ledger.db" ".." = true)
        by (apply Contains_spec; exists pre, post; exact H).
      discriminate.
  - apply (proj2 (proj2 (proj2 (getSqlitePath_contained
                                  (fun _ => "data/../../etc/passwd"))))).
    right. exists "data/", "/../etc/passwd". reflexivity.
Defined.

(** ** The account repository *)

Lemma scanAccounts_store (tx : Tx) (rows : list accounts_row) :
  forall (out : list accounts_Account) (w : world),
    store (snd (scanAccounts tx rows out w)) = store w.
Proof.
  induction rows as [|r rest IH]; intros out [st s c]; [reflexivity|].
  simpl scanAccounts. crunch; try reflexivity;
    try (destruct (is_ErrNoRows _); crunch; try reflexivity; rewrite IH; reflexivity);
    match goal with
    | |- context [getAccountBalance ?tx ?id ?w'] =>
        pose proof (getAccountBalance_store tx id w') as H;
        destruct (getAccountBalance tx id w') as [[[b [err|]]|] [st2 s2 c2]]
    end; simpl in *; subst; crunch; try reflexivity; rewrite IH; reflexivity.
Qed.

Lemma GetAccounts_store (table : list accounts_row) (accountIDs : list string)
    (w : world) :
  store (snd (GetAccounts table accountIDs w)) = store w.
Proof.
  destruct w as [st s c]. unfold GetAccounts.
  destruct accountIDs as [|id ids]; [reflexivity|].
  unfold_accounts. crunch; try reflexivity;
  match goal with
  | |- context [scanAccounts ?tx ?rows ?out ?w'] =>
      pose proof (scanAccounts_store tx rows out w') as H;
      destruct (scanAccounts tx rows out w') as [[[o|err]|] [st4 s4 c4]]
  end; simpl in *; subst; crunch; reflexivity.
Qed.

Lemma getAccountBalance_run (tx : Tx) (accountId : string) (w : world) :
  ok_script (script w) ->
  running_in_range (map r_amount (balance_rows tx accountId)) ->
  exists w',
    getAccountBalance tx accountId w = (Val (ledger_balance tx accountId, None), w')
    /\ ok_script (script w') /\ store w' = store w.
Proof.
  destruct w as [st s c]. intros H R. simpl in H.
  unfold getAccountBalance, QueryRow_balance.
  rewrite (sqlite_sum_exact _ 0 R), <- ledger_balance_rows.
  crunch_ok H;
    (eexists; split; [reflexivity|]; split;
     [assumption || apply ok_script_nil | reflexivity]).
Qed.

Lemma scanAccounts_run (tx : Tx) (rows : list accounts_row) :
  forall (out : list accounts_Account) (w : world),
    ok_script (script w) ->
    (forall r, In r rows ->
               running_in_range (map r_amount (balance_rows tx (a_account_id r)))) ->
    exists w',
      scanAccounts tx rows out w
      = (Val (inl (out ++ map (fun r => scanned r (ledger_balance tx (a_account_id r)))
                              rows)), w')
      /\ ok_script (script w') /\ store w' = store w.
Proof.
  induction rows as [|r rest IH]; intros out [st s c] H R; simpl in H.
  - simpl. rewrite app_nil_r. eexists. split; [reflexivity|].
    split; [exact H | reflexivity].
  - assert (R1 := R r (or_introl eq_refl)).
    assert (R2 : forall x, In x rest ->
                 running_in_range (map r_amount (balance_rows tx (a_account_id x))))
      by (intros x Hx; apply R; right; exact Hx).
    simpl scanAccounts. crunch_ok H;
    match goal with
    | |- context [getAccountBalance ?tx ?id ?w'] =>
        let K := fresh "K" in
        assert (K : ok_script (script w'))
          by (simpl; assumption || apply ok_script_nil);
        destruct (getAccountBalance_run tx id w' K R1) as ([st2 s2 c2] & E2 & K2 & S2);
        rewrite E2; simpl in K2, S2; subst st2
    end; simpl;
    destruct (IH (out ++ [scanned r (ledger_balance tx (a_account_id r))])
                (mkWorld st s2 c2) K2 R2) as (w' & E & K' & S');
    rewrite E, <- app_assoc; exists w'; (split; [reflexivity|]);
    (split; [exact K' | exact S']).
Qed.

(** X16: the edge cases of [GetAccounts].  For an empty list of IDs it
    returns no account and a nil error without any database call.  For a
    non-empty list, when [Begin] fails it does not return the error: it
    calls [Rollback] on the nil transaction and panics.  Under every outcome
    of the database calls it leaves the committed ledger as it was. *)
Theorem GetAccounts_edges (table : list accounts_row) (w : world) :
  GetAccounts table [] w = (Val ([], None), w) /\
  (forall id ids e rest,
      script w = Some e :: rest ->
      fst (GetAccounts table (id :: ids) w) = Panic) /\
  (forall ids, store (snd (GetAccounts table ids w)) = store w).
Proof.
  split; [reflexivity|]. split.
  - intros id ids e rest E. destruct w as [st s c]. simpl in E. subst s.
    reflexivity.
  - intros ids. apply GetAccounts_store.
Qed.

Lemma GetAccounts_edges_witness :
  fst (GetAccounts accounts1 ["A"; "B"] (mkWorld ledger1 [Some boom] 4)) = Panic.
Proof.
  apply (proj1 (proj2 (GetAccounts_edges accounts1 (mkWorld ledger1 [Some boom] 4)))
           "A" ["B"] boom []).
  reflexivity.
Defined.

Lemma GetAccounts_run (table : list accounts_row) (id : string)
    (ids : list string) (w : world) :
  ok_script (script w) ->
  (forall r, In r (selected_accounts table (id :: ids)) ->
             running_in_range
               (map r_amount (balance_rows (store w) (a_account_id r)))) ->
  exists w',
    GetAccounts table (id :: ids) w
    = (Val (map (fun r => scanned r (ledger_balance (store w) (a_account_id r)))
                (selected_accounts table (id :: ids)), None), w')
    /\ ok_script (script w').
Proof.
  intros H R. destruct w as [st s c]. simpl in H, R. unfold GetAccounts.
  unfold_accounts. simpl store.
  crunch_ok H;
  match goal with
  | |- context [scanAccounts ?tx ?rows ?out ?w'] =>
      let K := fresh "K" in
      assert (K : ok_script (script w'))
        by (simpl; assumption || apply ok_script_nil);
      destruct (scanAccounts_run tx rows out w' K R) as ([st4 s4 c4] & E4 & K4 & S4);
      rewrite E4; simpl in K4, S4; subst st4
  end; crunch_ok K4;
  (eexists; split; [reflexivity | assumption || apply ok_script_nil]).
Qed.

Lemma Permutation_insert_by_account_id (r : accounts_row) (l : list accounts_row) :
  Permutation (insert_by_account_id r l) (r :: l).
Proof.
  induction l as [|x l IH]; simpl; [apply Permutation_refl|].
  destruct (String.leb (a_account_id r) (a_account_id x)); [apply Permutation_refl|].
  apply perm_trans with (x :: r :: l); [apply perm_skip, IH | apply perm_swap].
Qed.

Lemma Permutation_selected_accounts (table : list accounts_row) (ids : list string) :
  Permutation (selected_accounts table ids) (filter (requested ids) table).
Proof.
  unfold selected_accounts.
  induction (filter (requested ids) table) as [|x l IH]; simpl;
    [apply Permutation_refl|].
  apply perm_trans with (x :: fold_right insert_by_account_id [] l);
    [apply Permutation_insert_by_account_id | apply perm_skip, IH].
Qed.

Lemma requested_iff (ids : list string) (r : accounts_row) :
  requested ids r = true <-> In (a_account_id r) ids /\ a_deleted_at r = None.
Proof.
  unfold requested. rewrite andb_true_iff, existsb_exists. split.
  - intros ((x & Hx & E) & D). apply String.eqb_eq in E. subst x.
    destruct (a_deleted_at r); [discriminate|]. tauto.
  - intros (Hi & D). rewrite D. split; [|reflexivity].
    exists (a_account_id r). split; [exact Hi | apply String.eqb_refl].
Qed.

(** X17: what [GetAccounts] returns when every database call succeeds and
    the running sum of each requested account stays within 64 bits: with a
    nil error, one account per row of [accounts] that has no deletion time
    and whose ID is among the requested ones, each with the columns of its
    row and, as balance, the sum of the amounts of its visible lines in the
    ledger.  The order of the accounts is left to SQLite and is not stated.
    IDs that match no such row are left out without an error. *)
Theorem GetAccounts_balances (table : list accounts_row) (id : string)
    (ids : list string) (w : world) :
  ok_script (script w) ->
  (forall r, In r table -> requested (id :: ids) r = true ->
             running_in_range
               (map r_amount (balance_rows (store w) (a_account_id r)))) ->
  exists accounts,
    fst (GetAccounts table (id :: ids) w) = Val (accounts, None) /\
    Permutation accounts
      (map (fun r => scanned r (ledger_balance (store w) (a_account_id r)))
           (filter (requested (id :: ids)) table)) /\
    (forall r, requested (id :: ids) r = true <->
               In (a_account_id r) (id :: ids) /\ a_deleted_at r = None).
Proof.
  intros H R.
  assert (R' : forall r, In r (selected_accounts table (id :: ids)) ->
                 running_in_range
                   (map r_amount (balance_rows (store w) (a_account_id r)))).
  { intros r Hr.
    apply (Permutation_in _ (Permutation_selected_accounts table (id :: ids))) in Hr.
    apply filter_In in Hr. apply R; tauto. }
  destruct (GetAccounts_run table id ids w H R') as (w' & E & _).
  rewrite E. eexists. split; [reflexivity|]. split.
  - apply Permutation_map, Permutation_selected_accounts.
  - intros r. apply requested_iff.
Qed.

Lemma GetAccounts_balances_witness :
  exists accounts,
    fst (GetAccounts accounts2 ["A"; "B"; "C"; "Z"] (mkWorld ledger1 [None] 4))
    = Val (accounts, None) /\
    Permutation accounts
      (map (fun r => scanned r (ledger_balance ledger1 (a_account_id r)))
           (filter (requested ["A"; "B"; "C"; "Z"]) accounts2)) /\
    (forall r, requested ["A"; "B"; "C"; "Z"] r = true <->
               In (a_account_id r) ["A"; "B"; "C"; "Z"] /\ a_deleted_at r = None).
Proof.
  apply (GetAccounts_balances accounts2 "A" ["B"; "C"; "Z"]
           (mkWorld ledger1 [None] 4)).
  - repeat constructor.
  - intros r [E|[E|[E|[]]]] _; subst r; intros [|[|n]]; vm_compute;
      (split; [discriminate | reflexivity]).
Defined.

(** ** The posting handler *)

Lemma checkBalance_nil_lines (accounts : list Account) (tx : transaction) :
  checkBalance accounts tx = None ->
  (2 <= List.length accounts)%nat /\ Lines tx <> [].
Proof.
  unfold checkBalance. pose proof (checkBalance_input accounts tx) as I.
  destruct ((len accounts <? 2) || (len (Lines tx) =? 0)); [discriminate|].
  intros _. apply I. reflexivity.
Qed.

Lemma getAccountBalance_clock (tx : Tx) (accountId : string) (w : world) :
  clock (snd (getAccountBalance tx accountId w)) = clock w.
Proof.
  destruct w as [st s c]. unfold getAccountBalance, QueryRow_balance.
  destruct (sqlite_sum 0 _); crunch; reflexivity.
Qed.

Lemma scanAccounts_clock (tx : Tx) (rows : list accounts_row) :
  forall (out : list accounts_Account) (w : world),
    clock (snd (scanAccounts tx rows out w)) = clock w.
Proof.
  induction rows as [|r rest IH]; intros out [st s c]; [reflexivity|].
  simpl scanAccounts. crunch; try reflexivity;
    try (destruct (is_ErrNoRows _); crunch; try reflexivity; rewrite IH; reflexivity);
    match goal with
    | |- context [getAccountBalance ?tx ?id ?w'] =>
        pose proof (getAccountBalance_clock tx id w') as H;
        destruct (getAccountBalance tx id w') as [[[b [err|]]|] [st2 s2 c2]]
    end; simpl in *; subst; crunch; try reflexivity; rewrite IH; reflexivity.
Qed.

Lemma GetAccounts_clock (table : list accounts_row) (accountIDs : list string)
    (w : world) :
  clock (snd (GetAccounts table accountIDs w)) = clock w.
Proof.
  destruct w as [st s c]. unfold GetAccounts.
  destruct accountIDs as [|id ids]; [reflexivity|].
  unfold_accounts. crunch; try reflexivity;
  match goal with
  | |- context [scanAccounts ?tx ?rows ?out ?w'] =>
      pose proof (scanAccounts_clock tx rows out w') as H;
      destruct (scanAccounts tx rows out w') as [[[o|err]|] [st4 s4 c4]]
  end; simpl in *; subst; crunch; reflexivity.
Qed.

Lemma createTransactionHandler_spec
    (grabAccountIds : list transactionLine -> list string)
    (table : list accounts_row) (req : createTransactionRequest) (id : string)
    (w : world) :
  match createTransactionHandler grabAccountIds table req id w with
  | (Val (StatusOK tx), w') =>
      tx = mkTransaction id (clock w) (req_Lines req) /\
      validate tx = None /\ Lines tx <> [] /\
      store w' = posted (store w) tx (clock w + 1)
  | (_, w') => store w' = store w
  end.
Proof.
  destruct w as [st s c].
  unfold createTransactionHandler, asTransaction, bind, time_Now, ret. simpl.
  set (tx := mkTransaction id c (req_Lines req)).
  pose proof (GetAccounts_store table (grabAccountIds (req_Lines req))
                (mkWorld st s (c + 1))) as G.
  pose proof (GetAccounts_clock table (grabAccountIds (req_Lines req))
                (mkWorld st s (c + 1))) as C.
  destruct (GetAccounts table (grabAccountIds (req_Lines req)) (mkWorld st s (c + 1)))
    as [[[accs [err|]]|] [st2 s2 c2]]; simpl in G, C; subst st2 c2;
    try reflexivity.
  destruct (checkBalance (map asAccount accs) tx) as [err|] eqn:CB; [reflexivity|].
  apply checkBalance_nil_lines in CB. destruct CB as [_ NE].
  pose proof (createTransaction_atomic tx (mkWorld st s2 (c + 1))) as A.
  pose proof (createTransaction_valid tx (mkWorld st s2 (c + 1))) as V.
  destruct (createTransaction tx (mkWorld st s2 (c + 1))) as [[[err|]|] w3];
    simpl in *; try exact A.
  split; [reflexivity|]. split; [apply V; reflexivity|]. split; [exact NE|].
  exact A.
Qed.

(** X18: the posting handler, from the decoded request on and for every
    helper [grabAccountIds], every account table and every outcome of the
    database calls.  It answers 200 only with the transaction built from the
    request (given ID, request lines), and only when that transaction has a
    line and passes [validate]; the ledger is then the old one followed by
    the header and the line rows of the transaction.  With any other
    outcome, a problem response or a panic, the ledger is unchanged. *)
Theorem createTransactionHandler_all_or_nothing
    (grabAccountIds : list transactionLine -> list string)
    (table : list accounts_row) (req : createTransactionRequest) (id : string)
    (w : world) :
  (forall tx,
      fst (createTransactionHandler grabAccountIds table req id w)
      = Val (StatusOK tx) ->
      tx = mkTransaction id (clock w) (req_Lines req) /\
      validate tx = None /\ req_Lines req <> [] /\
      store (snd (createTransactionHandler grabAccountIds table req id w))
      = posted (store w) tx (clock w + 1)) /\
  ((forall tx,
       fst (createTransactionHandler grabAccountIds table req id w)
       <> Val (StatusOK tx)) ->
   store (snd (createTransactionHandler grabAccountIds table req id w)) = store w).
Proof.
  pose proof (createTransactionHandler_spec grabAccountIds table req id w) as S.
  destruct (createTransactionHandler grabAccountIds table req id w)
    as [[[err|tx]|] w']; simpl in *; split; try discriminate;
    try (intros _; exact S).
  - intros tx' E. injection E as E. subst tx'.
    destruct S as (E & V & NE & P). subst tx. simpl in NE. tauto.
  - intros N. exfalso. apply (N tx). reflexivity.
Qed.

Lemma createTransactionHandler_all_or_nothing_witness :
  store (snd (createTransactionHandler grabLineAccounts accounts1
                (mkRequest (Lines unbalanced)) "T3" (mkWorld ledger1 [] 4)))
  = ledger1.
Proof.
  apply (proj2 (createTransactionHandler_all_or_nothing grabLineAccounts accounts1
                  (mkRequest (Lines unbalanced)) "T3" (mkWorld ledger1 [] 4))).
  intros tx. discriminate.
Defined.

(** X19: the handler answers 200 when nothing stands in the way.  Assume
    every database call succeeds, the helper returns at least one ID for the
    request lines, the running sums of the selected accounts stay within 64
    bits, the transaction built from the request passes [validate], and
    [checkBalance] accepts it against the selected live accounts with their
    ledger balances.  Then the handler answers 200 with that transaction and
    the ledger holds it. *)
Theorem createTransactionHandler_accepts
    (grabAccountIds : list transactionLine -> list string)
    (table : list accounts_row) (req : createTransactionRequest) (id : string)
    (w : world) :
  let tx := mkTransaction id (clock w) (req_Lines req) in
  let live := selected_accounts table (grabAccountIds (req_Lines req)) in
  ok_script (script w) ->
  grabAccountIds (req_Lines req) <> [] ->
  (forall r, In r live ->
             running_in_range
               (map r_amount (balance_rows (store w) (a_account_id r)))) ->
  validate tx = None ->
  checkBalance
    (map (fun r => mkAccount (a_account_id r)
                     (ledger_balance (store w) (a_account_id r))) live) tx = None ->
  fst (createTransactionHandler grabAccountIds table req id w) = Val (StatusOK tx) /\
  store (snd (createTransactionHandler grabAccountIds table req id w))
  = posted (store w) tx (clock w + 1).
Proof.
  intros tx live H NE R V CB.
  assert (F : fst (createTransactionHandler grabAccountIds table req id w)
              = Val (StatusOK tx)).
  { destruct w as [st s c]. simpl in *.
    unfold createTransactionHandler, asTransaction, bind, time_Now, ret. simpl.
    fold tx. destruct (grabAccountIds (req_Lines req)) as [|i ids] eqn:G;
      [contradiction|].
    destruct (GetAccounts_run table i ids (mkWorld st s (c + 1)) H R)
      as (w2 & E & K).
    rewrite E. simpl store. rewrite map_map. simpl. unfold live in CB.
    unfold asAccount. simpl. rewrite CB.
    pose proof (createTransaction_ok tx w2 K V) as O.
    destruct (createTransaction tx w2) as [[[err|]|] w3]; try contradiction.
    reflexivity. }
  split; [exact F|].
  pose proof (createTransactionHandler_spec grabAccountIds table req id w) as S.
  destruct (createTransactionHandler grabAccountIds table req id w)
    as [[[err|tx']|] w']; simpl in *; try discriminate.
  injection F as F. subst tx'. tauto.
Qed.

Lemma createTransactionHandler_accepts_witness :
  fst (createTransactionHandler grabLineAccounts accounts1
         (mkRequest [mkLine "A" Transfer (-10); mkLine "B" Transfer 10]) "T20"
         (mkWorld ledger1 [] 4))
  = Val (StatusOK (mkTransaction "T20" 4
                     [mkLine "A" Transfer (-10); mkLine "B" Transfer 10])) /\
  store (snd (createTransactionHandler grabLineAccounts accounts1
         (mkRequest [mkLine "A" Transfer (-10); mkLine "B" Transfer 10]) "T20"
         (mkWorld ledger1 [] 4)))
  = posted ledger1 (mkTransaction "T20" 4
                      [mkLine "A" Transfer (-10); mkLine "B" Transfer 10]) 5.
Proof.
  apply (createTransactionHandler_accepts grabLineAccounts accounts1
           (mkRequest [mkLine "A" Transfer (-10); mkLine "B" Transfer 10]) "T20"
           (mkWorld ledger1 [] 4)).
  - apply ok_script_nil.
  - discriminate.
  - intros r [E|[E|[]]]; subst r; intros [|[|n]]; vm_compute;
      (split; [discriminate | reflexivity]).
  - reflexivity.
  - reflexivity.
Defined.

(** ** Migrations *)

(** X20: [migrate] runs the three statements in order and stops at the first
    one whose [Exec] fails: it then returns an error that carries the index
    of that statement, its first 40 bytes and the cause, and later
    statements are not run (no further database call is made).  If no
    [Exec] fails it returns nil.  The slice [row[:40]] of the error path
    never panics, each statement being longer than 40 bytes. *)
Theorem migrate_outcome (w : world) :
  fst (migrate w) <> Panic /\
  (forall (k : nat) (e : error) (rest : list (option error)),
      (k < 3)%nat ->
      script w = repeat None k ++ Some e :: rest ->
      exists row,
        nth_error migrations k = Some row /\
        migrate w
        = (Val (Some (Errorf "migration #%d [%s...] had problem: %v"
                             [VInt (Z.of_nat k); VStr (substring 0 40 row);
                              VErr (Some e)])),
           mkWorld (store w) rest (clock w))) /\
  (ok_script (firstn 3 (script w)) -> fst (migrate w) = Val None).
Proof.
  destruct w as [st s c]. unfold migrate, migrations. split; [|split].
  - simpl migrateFrom. unfold slice_to. crunch; discriminate.
  - intros k e rest Hk E. simpl in E. subst s.
    destruct k as [|[|[|k]]]; [| | |lia]; (eexists; split; [reflexivity|]);
      reflexivity.
  - simpl script. intros H. simpl migrateFrom. unfold slice_to.
    destruct s as [|[e1|] [|[e2|] [|[e3|] s]]]; simpl in H;
      try reflexivity; unfold ok_script in H;
      repeat match goal with
             | H : Forall _ (_ :: _) |- _ =>
                 apply Forall_cons_iff in H; destruct H as [? H]
             end; discriminate.
Qed.

Lemma migrate_outcome_witness :
  exists row,
    nth_error migrations 1 = Some row /\
    migrate (mkWorld empty_ledger [None; Some boom; None] 0)
    = (Val (Some (Errorf "migration #%d [%s...] had problem: %v"
                         [VInt 1; VStr (substring 0 40 row); VErr (Some boom)])),
       mkWorld empty_ledger [None] 0).
Proof.
  apply (proj1 (proj2 (migrate_outcome
                         (mkWorld empty_ledger [None; Some boom; None] 0)))
           1%nat boom [None]).
  - lia.
  - reflexivity.
Defined.
